(** * Lincer: discovery and classification of novel lncRNA transcripts

    A shallow embedding of [lincer.py] and the properties of its
    decision logic.

    Conventions of the embedding.
    - A pandas cell holding text is an [option string]; [None] is the
      missing value (NaN).  Comparing a missing cell with a literal by
      [==] is false; comparing two cells by [!=] is true as soon as
      one of them is missing.
    - A DataFrame indexed by [transcript_id] is a [gmap string _] when
      only its rows by key matter, and a [list] of rows when order
      matters.
    - An integer column holds int64 values, written as [Z]; its
      arithmetic ([end - start + 1], sums) wraps around, minima and
      comparisons are exact.
    - A float is a [spec_float], the binary64 numbers in their
      canonical form; comparisons are those of IEEE 754, false on NaN.
      Python's [float] of a string is a parameter.
    - A Python [str] is a byte string: [string] of 8-bit [ascii].
    - A procedure that may raise returns an [outcome]; one that acts
      on files takes and returns the filesystem.  The external
      comparator and the reading of its table are parameters. *)

From Stdlib Require Import ZArith Bool List Ascii String Sorting.Sorted
  Permutation Floats.SpecFloat Lia.
From stdpp Require Import base option list gmap strings fin_maps.

Local Open Scope string_scope.
Local Open Scope Z_scope.

(** ** Cells *)

Module Cell.

(** A text cell of a table; [None] stands for NaN. *)
Definition t := option string.

(** [column == 'lit'], element-wise. *)
Definition eq_lit (c : t) (lit : string) : bool :=
  match c with
  | Some s => String.eqb s lit
  | None => false
  end.

(** [column_a != column_b], element-wise: NaN differs from everything. *)
Definition ne (a b : t) : bool :=
  match a, b with
  | Some x, Some y => negb (String.eqb x y)
  | _, _ => true
  end.

(** [column.isin([...])], element-wise. *)
Definition isin (c : t) (lits : list string) : bool :=
  match c with
  | Some s => existsb (String.eqb s) lits
  | None => false
  end.

End Cell.

(** ** Python string operations used on annotation text *)

Module Text.

Definition dquote : string := String "034"%char EmptyString.
Definition newline : ascii := "010"%char.
Definition tab : string := String "009"%char EmptyString.

(** [s.split(sep)] for a non-empty [sep]: the pieces between the
    non-overlapping occurrences of [sep], scanning from the left.
    [skip] counts the characters of a matched separator still to be
    passed over.  The result is the first piece and the later ones. *)
Fixpoint split_aux (sep : string) (skip : nat) (s : string)
  : string * list string :=
  match s with
  | EmptyString => (EmptyString, [])
  | String c s' =>
      match skip with
      | S k => split_aux sep k s'
      | O =>
          if String.prefix sep s then
            let '(p, ps) := split_aux sep (String.length sep - 1) s' in
            (EmptyString, p :: ps)
          else
            let '(p, ps) := split_aux sep 0 s' in
            (String c p, ps)
      end
  end.

Definition split (sep s : string) : list string :=
  let '(p, ps) := split_aux sep 0 s in p :: ps.

(** [text.split(key)[1]], split again at the double quote, piece
    [1] of that: the value quoted after [key].  [None] when one of the two
    subscripts is out of range (an [IndexError] in plain Python, NaN
    under the pandas [.str] accessor). *)
Definition attr_value (key text : string) : option string :=
  match split key text !! 1%nat with
  | Some piece => split dquote piece !! 1%nat
  | None => None
  end.

(** The lines a file object yields when iterated: each keeps its
    terminating newline; the last one may lack it. *)
Fixpoint readlines (content : string) : list string :=
  match content with
  | EmptyString => []
  | String c rest =>
      if Ascii.eqb c newline then String c EmptyString :: readlines rest
      else match readlines rest with
           | [] => [String c EmptyString]
           | l :: ls => String c l :: ls
           end
  end.

End Text.

(** ** Exceptions *)

Inductive exn := IndexError | ValueError | OSError | IOError | KeyError
  | CalledProcessError (status : Z).

(** The result of running a procedure that may raise. *)
Inductive outcome (A : Type) :=
  | Returned (a : A)
  | Raised (e : exn).
Arguments Returned {A} a.
Arguments Raised {A} e.

(** ** The GTF line selector ([_filter_gtf_by_transcript]) *)

Module LineSelector.

(** [len(line) == 0 or line[0] == '#']. *)
Definition skipped (line : string) : bool :=
  Nat.eqb (String.length line) 0
  || match String.get 0 line with
     | Some c => Ascii.eqb c "#"
     | None => false
     end.

(** The state of the loop body is the sequence of strings written to
    [outfid] so far.  When the extraction raises, the loop is left
    with what was written before. *)
Fixpoint loop (keep : gset string) (lines : list string)
  (written : list string) : list string * outcome unit :=
  match lines with
  | [] => (written, Returned tt)
  | line :: rest =>
      if skipped line then loop keep rest written
      else
        match Text.attr_value "transcript_id" line with
        | None => (written, Raised IndexError)
        | Some transcript_id =>
            if bool_decide (transcript_id ∈ keep)
            then loop keep rest (written ++ [line])%list
            else loop keep rest written
        end
  end.

(** [_filter_gtf_by_transcript(gtf_in, gtf_out, transcripts_to_keep)]
    on the content of [gtf_in]: the strings written to [gtf_out] and
    how the call ended. *)
Definition _filter_gtf_by_transcript (gtf_in : string) (keep : gset string)
  : list string * outcome unit :=
  loop keep (Text.readlines gtf_in) [].

(** The line is one the selector extracts a [transcript_id] from,
    and that identifier is in the keep-set. *)
Definition selected (keep : gset string) (line : string) : bool :=
  negb (skipped line)
  && match Text.attr_value "transcript_id" line with
     | Some transcript_id => bool_decide (transcript_id ∈ keep)
     | None => false
     end.

(** Every line that is not skipped carries a [transcript_id]. *)
Definition well_formed (lines : list string) : Prop :=
  Forall (fun line =>
    skipped line = false -> is_Some (Text.attr_value "transcript_id" line))
    lines.

End LineSelector.

#[global] Instance outcome_bind : MBind outcome := fun A B f m =>
  match m with
  | Returned a => f a
  | Raised e => Raised e
  end.

(** ** Table operations of pandas *)

Module Frame.

(** [rows.groupby(key)[col]]: the values of [col] per key, in row
    order.  Rows whose key is missing belong to no group. *)
Definition groupby {A} (rows : list (Cell.t * A)) : gmap string (list A) :=
  foldr (fun kv m =>
           match kv.1 with
           | Some k => <[k := kv.2 :: default [] (m !! k)]> m
           | None => m
           end) ∅ rows.

(** The values of the rows whose key is [k], in row order. *)
Definition group_of {A} (k : string) (rows : list (Cell.t * A)) : list A :=
  omap (fun kv => if decide (kv.1 = Some k) then Some kv.2 else None) rows.

(** [left.join(right)]: a left join on the index; a key without a
    row on the right gets missing values there. *)
Definition join {A B} (l : gmap string A) (r : gmap string B)
  : gmap string (A * option B) :=
  map_imap (fun k a => Some (a, r !! k)) l.

(** The value an int64 holds after an operation whose exact result
    is [z]: [z] reduced modulo 2^64 into the range from -2^63 to
    2^63 - 1. *)
Definition wrap64 (z : Z) : Z :=
  (z + 9223372036854775808) mod 18446744073709551616 - 9223372036854775808.

(** [.sum()] of an int64 column: the running sum starts at 0 and
    wraps around at every addition. *)
Definition sum (vs : list Z) : Z :=
  foldl (fun acc v => wrap64 (acc + v)) 0 vs.

(** The sum of the values as integers. *)
Definition exact_sum (vs : list Z) : Z := foldr Z.add 0 vs.

(** [.min()] of an integer column of a group (never empty). *)
Definition min (vs : list Z) : option Z :=
  match vs with
  | [] => None
  | v :: vs' => Some (foldl Z.min v vs')
  end.

Definition is_nan (f : spec_float) : bool :=
  match f with S754_nan => true | _ => false end.

Definition not_nan (f : spec_float) : Prop := f <> S754_nan.

(** One turn of the loop of [.max()]: the state is the number of
    entries counted and the running maximum. *)
Definition max_step (st : nat * spec_float) (val : spec_float)
  : nat * spec_float :=
  if is_nan val then st
  else (S st.1, if SFltb st.2 val then val else st.2).

(** [.max()] of a float column of a group: the running maximum
    starts at minus infinity, NaN entries are passed over, and the
    result is NaN when no entry was counted. *)
Definition max (vs : list spec_float) : spec_float :=
  let '(nobs, maxx) := foldl max_step (O, S754_infinity true) vs in
  if Nat.eqb nobs 0 then S754_nan else maxx.

(** [.first()] of a text column of a group: the first entry that is
    not missing. *)
Fixpoint first (vs : list Cell.t) : Cell.t :=
  match vs with
  | [] => None
  | Some v :: _ => Some v
  | None :: vs' => first vs'
  end.

End Frame.

(** ** Aggregator and novelty filter ([find_novel_transcripts]) *)

Module Novelty.

(** A row of the assembly as loaded with columns 2, 3, 4 and 8. *)
Record gtf_row := GtfRow {
  feature : string;
  start : Z;
  end_ : Z;
  attrs : string
}.

(** A row of [x] after lines 70-76. *)
Record exon := Exon {
  gene_id : Cell.t;
  transcript_id : Cell.t;
  length : Z;
  exons : Z;
  coverage : spec_float
}.

(** A Comparison Record: a row of the comparator's table. *)
Record cmp := Cmp {
  class_code : Cell.t;
  ref_id : Cell.t;
  ref_gene_id : Cell.t
}.

(** 3.0 as a binary64 number. *)
Definition three : spec_float := S754_finite false 6755399441055744 (-51).

Section WithFloat.

(** Python's [float(s)]; [None] when it raises [ValueError]. *)
Variable float : string -> option spec_float.

(** [.astype(float)] on one cell. *)
Definition astype_float (c : Cell.t) : outcome spec_float :=
  match c with
  | None => Returned S754_nan
  | Some s =>
      match float s with
      | Some f => Returned f
      | None => Raised ValueError
      end
  end.

(** Lines 67-76 on the rows of the assembly. *)
Fixpoint exon_rows (x : list gtf_row) : outcome (list exon) :=
  match x with
  | [] => Returned []
  | r :: x' =>
      if String.eqb (feature r) "exon" then
        cov ← astype_float (Text.attr_value "cov" (attrs r));
        rest ← exon_rows x';
        Returned ({| gene_id := Text.attr_value "gene_id" (attrs r);
                     transcript_id :=
                       Text.attr_value "transcript_id" (attrs r);
                     length := Frame.wrap64
                                 (Frame.wrap64 (end_ r - start r) + 1);
                     exons := 1;
                     coverage := cov |} :: rest)
      else exon_rows x'
  end.

End WithFloat.

(** What lines 70-76 make of one exon row, given its parsed coverage. *)
Definition built_from (float : string -> option spec_float)
  (r : gtf_row) (e : exon) : Prop :=
  transcript_id e = Text.attr_value "transcript_id" (attrs r)
  /\ length e = Frame.wrap64 (Frame.wrap64 (end_ r - start r) + 1)
  /\ exons e = 1
  /\ astype_float float (Text.attr_value "cov" (attrs r))
     = Returned (coverage e).

Definition is_exon (r : gtf_row) : bool := String.eqb (feature r) "exon".

(** The coverage of every exon row can be read as a number. *)
Definition cov_parses (float : string -> option spec_float)
  (x : list gtf_row) : Prop :=
  Forall (fun r =>
    is_exon r = true ->
    forall s, Text.attr_value "cov" (attrs r) = Some s -> is_Some (float s))
    x.

Definition t_length (x : list exon) : gmap string Z :=
  Frame.sum <$> Frame.groupby (map (fun e => (transcript_id e, length e)) x).
Definition t_num_exons (x : list exon) : gmap string Z :=
  Frame.sum <$> Frame.groupby (map (fun e => (transcript_id e, exons e)) x).
Definition t_coverage (x : list exon) : gmap string spec_float :=
  Frame.max <$> Frame.groupby (map (fun e => (transcript_id e, coverage e)) x).

(** A row of the joined table [y]. *)
Definition joined : Type := Z * option Z * option spec_float * option cmp.

Definition y_length (r : joined) : Z := r.1.1.1.
Definition y_exons (r : joined) : option Z := r.1.1.2.
Definition y_coverage (r : joined) : spec_float := default S754_nan r.1.2.
Definition y_class_code (r : joined) : Cell.t :=
  match r.2 with
  | Some c => class_code c
  | None => None
  end.

(** Line 86. *)
Definition summary (x : list exon) (t_class_code : gmap string cmp)
  : gmap string joined :=
  Frame.join (Frame.join (Frame.join (t_length x) (t_num_exons x))
                (t_coverage x)) t_class_code.

(** The mask of lines 91-94 on one row. *)
Definition passes (r : joined) : bool :=
  (200 <=? y_length r)
  && match y_exons r with Some n => 1 <? n | None => false end
  && SFleb three (y_coverage r)
  && Cell.isin (y_class_code r) ["u"; "j"; "i"; "x"].

(** The exon records of transcript [T] in the assembly. *)
Definition exon_records (T : string) (x : list gtf_row) : list gtf_row :=
  List.filter (fun r =>
                 String.eqb (feature r) "exon"
                 && bool_decide (Text.attr_value "transcript_id" (attrs r)
                                 = Some T)) x.

(** The claim on the length of a summary row: the sum, as an
    integer, of [end - start + 1] over the exon records. *)
Definition length_is_exact_sum (float : string -> option spec_float)
  (x : list gtf_row) (cc : gmap string cmp) (T : string) : Prop :=
  exists tbl row,
    exon_rows float x = Returned tbl
    /\ summary tbl cc !! T = Some row
    /\ y_length row
       = Frame.exact_sum (map (fun r => end_ r - start r + 1)
                              (exon_records T x)).

(** Lines 90-95: [z]. *)
Definition novel (y : gmap string joined) : gmap string joined :=
  filter (fun kv => passes kv.2 = true) y.

(** [find_novel_transcripts]: the summary table written to
    [<sample>.summary.tsv], and the run of the line selector on the
    assembly with [z.index] as keep-set, whose outcome is that of the
    call.  [x] is the assembly as a table, [gtf_in] its text,
    [t_class_code] the table returned by the comparison adapter. *)
Definition find_novel_transcripts (float : string -> option spec_float)
  (x : list gtf_row) (gtf_in : string) (t_class_code : gmap string cmp)
  : outcome (gmap string joined * (list string * outcome unit)) :=
  x ← exon_rows float x;
  let y := summary x t_class_code in
  let z := novel y in
  Returned (y, LineSelector._filter_gtf_by_transcript gtf_in (dom z)).

End Novelty.

(** ** The comparison adapter ([_get_cuffcompare_class_codes]) *)

Module Adapter.

(** The working directory and whatever else the paths name: a map
    from path to regular file or symbolic link.  A path without a
    slash is an entry of the working directory. *)
Inductive node :=
  | File (content : string)
  | Symlink (target : string).

(** The filesystem, and the external commands run so far, each with
    the filesystem it was started in. *)
Record world := World {
  files : gmap string node;
  calls : list (string * gmap string node)
}.

(** The file a path leads to, following at most [fuel] links. *)
Fixpoint resolve (fuel : nat) (fs : gmap string node) (path : string)
  : option string :=
  match fs !! path with
  | None => None
  | Some (File content) => Some content
  | Some (Symlink target) =>
      match fuel with
      | O => None
      | S fuel' => resolve fuel' fs target
      end
  end.

Definition max_links : nat := 40.

(** [os.path.exists(path)]: false for a broken link. *)
Definition os_path_exists (fs : gmap string node) (path : string) : bool :=
  bool_decide (is_Some (resolve max_links fs path)).

(** [os.symlink(src, dst)]: fails when [dst] is taken or is the
    empty path. *)
Definition os_symlink (src dst : string) (fs : gmap string node)
  : option (gmap string node) :=
  match fs !! dst with
  | Some _ => None
  | None =>
      if String.eqb dst "" then None else Some (<[dst := Symlink src]> fs)
  end.

(** [os.remove(path)]: removes the entry itself; fails when absent. *)
Definition os_remove (path : string) (fs : gmap string node)
  : option (gmap string node) :=
  match fs !! path with
  | Some _ => Some (delete path fs)
  | None => None
  end.

(** [open(path, 'w')]: the file is created or truncated. *)
Definition open_w (path : string) (fs : gmap string node)
  : gmap string node :=
  <[path := File EmptyString]> fs.

Definition in_cwd (path : string) : bool :=
  Nat.eqb (List.length (Text.split "/" path)) 1.

(** The names [glob('cuffcmp.*')] matches. *)
Definition junk (path : string) : bool :=
  in_cwd path && String.prefix "cuffcmp." path.

Definition glob_cuffcmp (fs : gmap string node) : list string :=
  List.filter junk (elements (dom fs)).

(** [for junk_file in names: os.remove(junk_file)]. *)
Definition remove_each (names : list string) (fs : gmap string node)
  : gmap string node :=
  foldl (fun fs name => delete name fs) fs names.

(** [gtf.split('/')[-1]]. *)
Definition basename (gtf : string) : string :=
  List.last (Text.split "/" gtf) EmptyString.

Definition command (ref_gtf gtf_local : string) : string :=
  "cuffcompare -r " ++ ref_gtf ++ " " ++ gtf_local.

Section WithTools.

(** The shell running a command line in the working directory:
    exit status and the filesystem it leaves. *)
Variable shell : string -> gmap string node -> Z * gmap string node.

(** Lines 120-124 on the text of the tmap file. *)
Variable read_tmap : string -> outcome (gmap string Novelty.cmp).

(** Lines 107-110: the filesystem after them and [symlink_created]. *)
Definition link_query (gtf : string) (fs : gmap string node)
  : gmap string node * outcome bool :=
  let gtf_local := basename gtf in
  if negb (os_path_exists fs gtf_local) then
    match os_symlink gtf gtf_local fs with
    | Some fs' => (fs', Returned true)
    | None => (fs, Raised OSError)
    end
  else (fs, Returned false).

(** Lines 113-117: [subprocess.check_call]. *)
Definition run_cuffcompare (ref_gtf gtf_local : string) (w : world)
  : world * outcome unit :=
  let cmd := command ref_gtf gtf_local in
  let fs := open_w "cuffcmp.stderr" (open_w "cuffcmp.stdout" (files w)) in
  let '(status, fs') := shell cmd fs in
  let w' := {| files := fs'; calls := (calls w ++ [(cmd, fs)])%list |} in
  if Z.eqb status 0 then (w', Returned tt)
  else (w', Raised (CalledProcessError status)).

(** Lines 120-124. *)
Definition extract (gtf_local : string) (fs : gmap string node)
  : outcome (gmap string Novelty.cmp) :=
  match resolve max_links fs ("cuffcmp." ++ gtf_local ++ ".tmap") with
  | None => Raised IOError
  | Some content => read_tmap content
  end.

Definition with_files (w : world) (fs : gmap string node) : world :=
  {| files := fs; calls := calls w |}.

Definition _get_cuffcompare_class_codes (ref_gtf gtf : string) (w : world)
  : world * outcome (gmap string Novelty.cmp) :=
  let gtf_local := basename gtf in
  match link_query gtf (files w) with
  | (fs1, Raised e) => (with_files w fs1, Raised e)
  | (fs1, Returned symlink_created) =>
      match run_cuffcompare ref_gtf gtf_local (with_files w fs1) with
      | (w2, Raised e) => (w2, Raised e)
      | (w2, Returned _) =>
          match extract gtf_local (files w2) with
          | Raised e => (w2, Raised e)
          | Returned class_codes =>
              let fs3 := remove_each (glob_cuffcmp (files w2)) (files w2) in
              if symlink_created : bool then
                match os_remove gtf_local fs3 with
                | Some fs4 => (with_files w2 fs4, Returned class_codes)
                | None => (with_files w2 fs3, Raised OSError)
                end
              else (with_files w2 fs3, Returned class_codes)
          end
      end
  end.

End WithTools.

(** The claim of cleanup on every exit path, for one call. *)
Definition cleans_up_always
  (shell : string -> gmap string node -> Z * gmap string node)
  (read_tmap : string -> outcome (gmap string Novelty.cmp))
  (ref_gtf gtf : string) (w : world) : Prop :=
  let r := _get_cuffcompare_class_codes shell read_tmap ref_gtf gtf w in
  ((link_query gtf (files w)).2 = Returned true ->
   files r.1 !! basename gtf = None)
  /\ (forall name, junk name = true -> files r.1 !! name = None).

End Adapter.

(** ** The classifier ([classify_novel_transcripts]) *)

Module Classifier.

(** One row of the table [x]: the two comparison records joined on
    [transcript_id], and the [classification] column. *)
Record row := Row {
  transcript_id : string;
  class_code__all : Cell.t;
  ref_id__all : Cell.t;
  ref_gene_id__all : Cell.t;
  class_code__lnc : Cell.t;
  ref_id__lnc : Cell.t;
  ref_gene_id__lnc : Cell.t;
  classification : string
}.

Definition set_classification (r : row) (v : string) : row :=
  {| transcript_id := transcript_id r;
     class_code__all := class_code__all r;
     ref_id__all := ref_id__all r;
     ref_gene_id__all := ref_gene_id__all r;
     class_code__lnc := class_code__lnc r;
     ref_id__lnc := ref_id__lnc r;
     ref_gene_id__lnc := ref_gene_id__lnc r;
     classification := v |}.

(** [x['classification'] = v]. *)
Definition assign_all (v : string) (x : list row) : list row :=
  map (fun r => set_classification r v) x.

(** [x.loc[mask, 'classification'] = v]. *)
Definition loc_assign (mask : row -> bool) (v : string) (x : list row)
  : list row :=
  map (fun r => if mask r then set_classification r v else r) x.

Definition unset (r : row) : bool := String.eqb (classification r) ".".

(** The masks of lines 193-202, without the leading
    [x.classification == '.'] conjunct. *)
Definition cond1 (r : row) : bool := Cell.eq_lit (class_code__lnc r) "=".
Definition cond2 (r : row) : bool :=
  Cell.eq_lit (class_code__lnc r) "j"
  && Cell.eq_lit (class_code__all r) "j"
  && Cell.ne (ref_gene_id__lnc r) (ref_gene_id__all r).
Definition cond3 (r : row) : bool := Cell.eq_lit (class_code__lnc r) "j".
Definition cond4 (r : row) : bool := Cell.eq_lit (class_code__all r) "u".
Definition cond5 (r : row) : bool :=
  Cell.eq_lit (class_code__all r) "x" && Cell.eq_lit (class_code__lnc r) "u".
Definition cond6 (r : row) : bool := Cell.eq_lit (class_code__all r) "i".

(** Lines 192-202: seven masked assignments over the whole table. *)
Definition classify (x : list row) : list row :=
  let x := assign_all "." x in
  let x := loc_assign (fun r => unset r && cond1 r) "known_isoform" x in
  let x := loc_assign (fun r => unset r && cond2 r) "possible_artifact" x in
  let x := loc_assign (fun r => unset r && cond3 r) "novel_isoform" x in
  let x := loc_assign (fun r => unset r && cond4 r) "intergenic" x in
  let x := loc_assign (fun r => unset r && cond5 r) "antisense" x in
  let x := loc_assign (fun r => unset r && cond6 r) "intronic" x in
  let x := loc_assign (fun r => unset r) "not_a_lncRNA" x in
  x.

(** The effect of [classify] on a single row. *)
Definition classify_row (r : row) : row :=
  match classify [r] with
  | r' :: _ => r'
  | [] => r
  end.

(** The label of the decision tree as the specification words it:
    the first rule, in the order 1-7, whose condition holds. *)
Definition first_match (r : row) : string :=
  if cond1 r then "known_isoform"
  else if cond2 r then "possible_artifact"
  else if cond3 r then "novel_isoform"
  else if cond4 r then "intergenic"
  else if cond5 r then "antisense"
  else if cond6 r then "intronic"
  else "not_a_lncRNA".

(** One masked assignment seen from a single row. *)
Definition step (c : row -> bool) (v : string) (r : row) : row :=
  if unset r && c r then set_classification r v else r.

(** No rule of 1-6 applies. *)
Definition unmatched (r : row) : bool :=
  negb (cond1 r || cond2 r || cond3 r || cond4 r || cond5 r || cond6 r).

Definition labels : list string :=
  [ "known_isoform"; "possible_artifact"; "novel_isoform"; "intergenic";
    "antisense"; "intronic"; "not_a_lncRNA" ].

End Classifier.

(** ** Ordering of sort keys *)

Module Order.

(** Lexicographic combination of two comparisons. *)
Definition lex (c1 c2 : comparison) : comparison :=
  match c1 with
  | Eq => c2
  | _ => c1
  end.

(** Missing values sort after all others. *)
Definition opt_compare {A} (cmp : A -> A -> comparison) (a b : option A)
  : comparison :=
  match a, b with
  | Some x, Some y => cmp x y
  | Some _, None => Lt
  | None, Some _ => Gt
  | None, None => Eq
  end.

Definition leb_of {A} (cmp : A -> A -> comparison) (a b : A) : bool :=
  match cmp a b with
  | Gt => false
  | _ => true
  end.

Section Sort.
Context {A : Type} (leb : A -> A -> bool).

Fixpoint insert (a : A) (l : list A) : list A :=
  match l with
  | [] => [a]
  | b :: l' => if leb a b then a :: l else b :: insert a l'
  end.

(** A stable ascending sort. *)
Definition sort (l : list A) : list A := foldr insert [] l.

End Sort.

Fixpoint drop_while {A} (P : A -> bool) (l : list A) : list A :=
  match l with
  | [] => []
  | a :: l' => if P a then drop_while P l' else l
  end.

(** The elements satisfying [P] occupy consecutive positions: after
    the first run of them no other follows. *)
Definition contiguousb {A} (P : A -> bool) (l : list A) : bool :=
  forallb (fun a => negb (P a))
    (drop_while P (drop_while (fun a => negb (P a)) l)).

(** The same, by a decomposition of the list. *)
Definition contiguous {A} (P : A -> bool) (l : list A) : Prop :=
  exists pre mid post,
    l = (pre ++ mid ++ post)%list
    /\ Forall (fun a => P a = false) pre
    /\ Forall (fun a => P a = true) mid
    /\ Forall (fun a => P a = false) post.

(** A comparison that orders its type as a total preorder. *)
Record preorder_cmp {A} (cmp : A -> A -> comparison) : Prop := PreorderCmp {
  cmp_opp : forall a b, cmp b a = CompOpp (cmp a b);
  cmp_eq_l : forall a b c, cmp a b = Eq -> cmp a c = cmp b c;
  cmp_lt_trans : forall a b c, cmp a b = Lt -> cmp b c = Lt -> cmp a c = Lt
}.

End Order.

(** ** The catalog builder ([fold_novel_lncs_into_input_gtfs]) *)

Module Catalog.

(** A cell of column 0 as [pd.read_table] loads it: an integer when
    the column of the file holds numbers only, text otherwise.  After
    the concatenation of line 269 the column may hold both. *)
Inductive chrom :=
  | ChrInt (n : Z)
  | ChrStr (s : string).

#[global] Instance chrom_eq_dec : EqDecision chrom.
Proof. solve_decision. Defined.

(** The order of Python 2 on such cells: numbers by value, text by
    bytes, every number before every text. *)
Definition chrom_compare (a b : chrom) : comparison :=
  match a, b with
  | ChrInt x, ChrInt y => Z.compare x y
  | ChrInt _, ChrStr _ => Lt
  | ChrStr _, ChrInt _ => Gt
  | ChrStr x, ChrStr y => String.compare x y
  end.

(** A row of an annotation file as [pd.read_table] loads it: the
    nine columns, the coordinates as integers. *)
Record gtf_line := GtfLine {
  c0 : chrom;
  c1 : string;
  c2 : string;
  c3 : Z;
  c4 : Z;
  c5 : string;
  c6 : string;
  c7 : string;
  c8 : string
}.

(** [pd.read_table] raises on a file without a data line (a
    [ValueError]); otherwise it gives the rows. *)
Definition read_table (t : list gtf_line) : outcome (list gtf_line) :=
  match t with
  | [] => Raised ValueError
  | _ :: _ => Returned t
  end.

(** A row of the tables built from them: column 8 dropped, the
    extracted columns added.  [gene_name] is missing where the table
    has no such column yet; [start_pos] is filled by the merge of
    line 275 and holds a whole number, be its column int64 or
    float64. *)
Record row := Row {
  line : gtf_line;
  gene_id : Cell.t;
  transcript_id : Cell.t;
  gene_name : Cell.t;
  start_pos : option Z
}.

Definition set_gene_name (r : row) (v : Cell.t) : row :=
  {| line := line r; gene_id := gene_id r;
     transcript_id := transcript_id r; gene_name := v;
     start_pos := start_pos r |}.
Definition set_gene_id (r : row) (v : Cell.t) : row :=
  {| line := line r; gene_id := v;
     transcript_id := transcript_id r; gene_name := gene_name r;
     start_pos := start_pos r |}.
Definition set_start_pos (r : row) (v : option Z) : row :=
  {| line := line r; gene_id := gene_id r;
     transcript_id := transcript_id r; gene_name := gene_name r;
     start_pos := v |}.

(** Lines 217-222. *)
Definition known_trans_gtf (lnc_gtf : list gtf_line) : list row :=
  map (fun l =>
         {| line := l;
            gene_id := Text.attr_value "gene_id" (c8 l);
            transcript_id := Text.attr_value "transcript_id" (c8 l);
            gene_name := Text.attr_value "gene_name" (c8 l);
            start_pos := None |})
      (List.filter (fun l => String.eqb (c2 l) "exon") lnc_gtf).

(** Lines 230-232. *)
Definition novel_trans_gtf (novel_gtf : list gtf_line) : list row :=
  map (fun l =>
         {| line := l;
            gene_id := Text.attr_value "gene_id" (c8 l);
            transcript_id := Text.attr_value "transcript_id" (c8 l);
            gene_name := None;
            start_pos := None |})
      novel_gtf.

(** [frame[frame.classification.isin(labels)].index] *)
Definition classified (labels : list string)
  (annots : gmap string Classifier.row) : gset string :=
  dom (filter (fun kv =>
                 existsb (String.eqb (Classifier.classification kv.2)) labels
                 = true) annots).

(** [table[table.transcript_id.isin(index)]] *)
Definition select (index : gset string) (table : list row) : list row :=
  List.filter (fun r =>
                 match transcript_id r with
                 | Some t => bool_decide (t ∈ index)
                 | None => false
                 end) table.

(** Line 246. *)
Definition trans_id_to_gene_name (annots : gmap string Classifier.row)
  : gmap string Cell.t :=
  Classifier.ref_gene_id__lnc <$> annots.

(** Line 247. *)
Definition gene_name_to_gene_id (known : list row) : gmap string Cell.t :=
  Frame.first <$>
    Frame.groupby (map (fun r => (gene_name r, gene_id r)) known).

(** [series.map(mapping)] on one cell. *)
Definition map_cell (mapping : gmap string Cell.t) (c : Cell.t) : Cell.t :=
  match c with
  | Some k => match mapping !! k with
              | Some v => v
              | None => None
              end
  | None => None
  end.

(** Lines 242-249. *)
Definition novel_isoform_gtf (known novel : list row)
  (annots : gmap string Classifier.row) : list row :=
  let t := select (classified ["novel_isoform"] annots) novel in
  let t := map (fun r =>
                  set_gene_name r
                    (map_cell (trans_id_to_gene_name annots)
                              (transcript_id r))) t in
  map (fun r =>
         set_gene_id r (map_cell (gene_name_to_gene_id known) (gene_name r)))
      t.

(** Lines 256-264. *)
Definition novel_gene_gtf (novel : list row)
  (annots : gmap string Classifier.row) : list row :=
  let t := select (classified ["intergenic"; "antisense"; "intronic"] annots)
                  novel in
  map (fun r => set_gene_name r (gene_id r)) t.

(** Line 274. *)
Definition start_pos_table (df : list row) : gmap string (option Z) :=
  Frame.min <$> Frame.groupby (map (fun r => (gene_id r, c3 (line r))) df).

(** The start coordinates of the rows of gene [g]. *)
Definition starts_of (g : string) (df : list row) : list Z :=
  map (fun r => c3 (line r))
      (List.filter (fun r => bool_decide (gene_id r = Some g)) df).

(** The binary64 number nearest to the integer [z], ties to the even
    mantissa: [z] itself below 2^53 in size. *)
Definition float64_of_int (z : Z) : Z :=
  let m := Z.abs z in
  if m <? 9007199254740992 then z
  else
    let e := Z.log2 m - 52 in
    let q := Z.shiftr m e in
    let r := m - Z.shiftl q e in
    let half := Z.shiftl 1 (e - 1) in
    let q' := if (half <? r) || ((r =? half) && Z.odd q) then q + 1 else q in
    Z.sgn z * Z.shiftl q' e.

(** The value the left merge of line 275 finds for one row. *)
Definition merged_start (table : gmap string (option Z)) (r : row)
  : option Z :=
  match gene_id r with
  | Some g => match table !! g with
              | Some v => v
              | None => None
              end
  | None => None
  end.

Definition is_missing {A} (v : option A) : bool :=
  match v with
  | Some _ => false
  | None => true
  end.

(** Line 275: the left merge on [gene_id].  The new column is int64
    when every row found a value; with a missing value in it, it is
    float64 and the integers are converted. *)
Definition merge_start_pos (df : list row) : list row :=
  let table := start_pos_table df in
  let upcast := existsb (fun r => is_missing (merged_start table r)) df in
  map (fun r =>
         set_start_pos r
           (if upcast then float64_of_int <$> merged_start table r
            else merged_start table r)) df.

(** The number the merged column holds for the integer [m]: the
    column is float64 exactly when a row of the table has no
    [gene_id], as such a row finds no minimum. *)
Definition stored (df : list row) (m : Z) : Z :=
  if existsb (fun r => is_missing (gene_id r)) df then float64_of_int m
  else m.

(** The sort key of line 276. *)
Definition key : Type := chrom * option Z * Cell.t * Cell.t.

Definition key_of (r : row) : key :=
  (c0 (line r), start_pos r, gene_id r, transcript_id r).

Definition key_compare (a b : key) : comparison :=
  Order.lex (chrom_compare a.1.1.1 b.1.1.1)
    (Order.lex (Order.opt_compare Z.compare a.1.1.2 b.1.1.2)
       (Order.lex (Order.opt_compare String.compare a.1.2 b.1.2)
          (Order.opt_compare String.compare a.2 b.2))).

Definition row_leb (a b : row) : bool :=
  Order.leb_of key_compare (key_of a) (key_of b).

(** Line 269: the three tables, one after the other. *)
Definition population (lnc_gtf novel_gtf : list gtf_line)
  (annots : gmap string Classifier.row) : list row :=
  let known := known_trans_gtf lnc_gtf in
  let novel := novel_trans_gtf novel_gtf in
  (known ++ novel_isoform_gtf known novel annots
         ++ novel_gene_gtf novel annots)%list.

(** Lines 216-277: the sorted table. *)
Definition catalog_rows (lnc_gtf novel_gtf : list gtf_line)
  (annots : gmap string Classifier.row) : outcome (list row) :=
  lnc ← read_table lnc_gtf;
  novel ← read_table novel_gtf;
  Returned (Order.sort row_leb (merge_start_pos (population lnc novel annots))).

(** The sort key without its last component. *)
Definition prefix_compare (a b : key) : comparison :=
  Order.lex (chrom_compare a.1.1.1 b.1.1.1)
    (Order.lex (Order.opt_compare Z.compare a.1.1.2 b.1.1.2)
       (Order.opt_compare String.compare a.1.2 b.1.2)).

(** The row is an exon line of gene [g]. *)
Definition of_gene (g : string) (r : row) : bool := Cell.eq_lit (gene_id r) g.

(** The row is an exon line of gene [g] on chromosome [c]. *)
Definition of_gene_on (c : chrom) (g : string) (r : row) : bool :=
  bool_decide (c0 (line r) = c) && of_gene g r.

(** The row is an exon line of gene [g] on chromosome [c], and has
    [sp] in the column [start_pos]. *)
Definition of_gene_at (c : chrom) (sp : option Z) (g : string) (r : row)
  : bool :=
  of_gene_on c g r && bool_decide (start_pos r = sp).

Definition sorted_by_key (rows : list row) : Prop :=
  StronglySorted (fun a b => row_leb a b = true) rows.

(** The claim that in the sorted table every gene is contiguous. *)
Definition genes_contiguous (rows : list row) : Prop :=
  forall g, Order.contiguous (of_gene g) rows.

(** The claim on the final catalog: it is written, every gene is
    contiguous in it and its rows are sorted. *)
Definition catalog_claim (lnc_gtf novel_gtf : list gtf_line)
  (annots : gmap string Classifier.row) : Prop :=
  exists rows,
    catalog_rows lnc_gtf novel_gtf annots = Returned rows
    /\ genes_contiguous rows /\ sorted_by_key rows.

(** The first entry of the list of the known table's [gene_id]s
    under [name], as line 247 computes it. *)
Definition first_gene_id (known : list row) (name : string) : Cell.t :=
  Frame.first
    (map gene_id
       (List.filter (fun r => bool_decide (gene_name r = Some name)) known)).

(** The line is an exon line of the known annotation that carries the
    gene name [n]. *)
Definition named (n : string) (l : gtf_line) : Prop :=
  c2 l = "exon" /\ Text.attr_value "gene_name" (c8 l) = Some n.

(** [g] is the [gene_id] of the first exon line of the known
    annotation that carries the name [name] and a [gene_id]; it is
    missing when there is no such line, or no name. *)
Definition first_gene_id_of (lnc_gtf : list gtf_line) (name g : Cell.t)
  : Prop :=
  match name, g with
  | Some n, Some g' =>
      exists pre l post,
        lnc_gtf = (pre ++ l :: post)%list
        /\ named n l
        /\ Text.attr_value "gene_id" (c8 l) = Some g'
        /\ forall l', In l' pre -> named n l' ->
                      Text.attr_value "gene_id" (c8 l') = None
  | Some n, None =>
      forall l, In l lnc_gtf -> named n l ->
                Text.attr_value "gene_id" (c8 l) = None
  | None, Some _ => False
  | None, None => True
  end.

(** String concatenation of cells: missing as soon as one is. *)
Definition cat (a b : Cell.t) : Cell.t :=
  match a, b with
  | Some x, Some y => Some (x ++ y)
  | _, _ => None
  end.

(** Line 282, on the three cells. *)
Definition attribute_text (gene_id transcript_id gene_name : Cell.t)
  : Cell.t :=
  cat (cat (cat (cat (cat (cat (Some ("gene_id " ++ Text.dquote)) gene_id)
                             (Some (Text.dquote ++ "; transcript_id "
                                                ++ Text.dquote)))
                        transcript_id)
                   (Some (Text.dquote ++ "; gene_name " ++ Text.dquote)))
              gene_name)
      (Some (Text.dquote ++ ";")).

Definition attributes (r : row) : Cell.t :=
  attribute_text (gene_id r) (transcript_id r) (gene_name r).

(** A line of the output: columns 0-7 and the new column 8. *)
Definition out_line : Type := gtf_line * Cell.t.

(** [fold_novel_lncs_into_input_gtfs]: the rows written to [out_gtf]. *)
Definition fold_novel_lncs_into_input_gtfs
  (lnc_gtf novel_gtf : list gtf_line) (annots : gmap string Classifier.row)
  : outcome (list out_line) :=
  rows ← catalog_rows lnc_gtf novel_gtf annots;
  Returned (map (fun r => (line r, attributes r)) rows).

End Catalog.

(** ** Sample inputs *)

Module Samples.
Import Text.

(** [key "value"; ] *)
Definition attr (key value : string) : string :=
  key ++ " " ++ dquote ++ value ++ dquote ++ "; ".

(** A line of an annotation file, with its newline. *)
Definition gtf_text (chrom feature first last attrs : string) : string :=
  chrom ++ tab ++ "Cufflinks" ++ tab ++ feature ++ tab ++ first ++ tab
    ++ last ++ tab ++ "." ++ tab ++ "+" ++ tab ++ "." ++ tab ++ attrs
    ++ String newline EmptyString.

Definition exon_a : string :=
  gtf_text "chr1" "exon" "100" "250"
    (attr "gene_id" "CUFF.1" ++ attr "transcript_id" "CUFF.1.1"
       ++ attr "cov" "5.0").
Definition exon_b : string :=
  gtf_text "chr1" "exon" "400" "520"
    (attr "gene_id" "CUFF.2" ++ attr "transcript_id" "CUFF.2.1"
       ++ attr "cov" "7.5").
Definition comment : string :=
  "# assembled by Cufflinks" ++ String newline EmptyString.
Definition empty_line : string := String newline EmptyString.

Definition five : spec_float := S754_finite false 5629499534213120 (-50).
Definition seven_and_a_half : spec_float :=
  S754_finite false 8444249301319680 (-50).
Definition below_three : spec_float :=
  S754_finite false 6755399441055743 (-51).

(** A stand-in for [float] that reads the numerals of the samples. *)
Definition float (s : string) : option spec_float :=
  if String.eqb s "5.0" then Some five
  else if String.eqb s "7.5" then Some seven_and_a_half
  else if String.eqb s "3.0" then Some Novelty.three
  else None.

Definition attrs_a : string :=
  attr "gene_id" "CUFF.1" ++ attr "transcript_id" "CUFF.1.1"
    ++ attr "cov" "5.0".
Definition attrs_b : string :=
  attr "gene_id" "CUFF.1" ++ attr "transcript_id" "CUFF.1.1"
    ++ attr "cov" "7.5".

(** Two exons of one transcript and a transcript line. *)
Definition assembly_rows : list Novelty.gtf_row :=
  [ Novelty.GtfRow "transcript" 100 520 attrs_a;
    Novelty.GtfRow "exon" 100 250 attrs_a;
    Novelty.GtfRow "exon" 400 520 attrs_b ].

(** The table lines 67-76 make of them. *)
Definition exon_table : list Novelty.exon :=
  [ Novelty.Exon (Some "CUFF.1") (Some "CUFF.1.1") 151 1 five;
    Novelty.Exon (Some "CUFF.1") (Some "CUFF.1.1") 121 1 seven_and_a_half ].

(** Two exons of one transcript, the first as long as an int64 can
    tell. *)
Definition long_exons : list Novelty.gtf_row :=
  [ Novelty.GtfRow "exon" 1 9223372036854775807 attrs_a;
    Novelty.GtfRow "exon" 1 2 attrs_b ].

Definition cmp_u : Novelty.cmp := Novelty.Cmp (Some "u") None None.
Definition cmp_eq : Novelty.cmp :=
  Novelty.Cmp (Some "=") (Some "ENST1") (Some "GENE1").

(** A row of the joined table that passes the filter, and four that
    differ from it in one column each. *)
Definition row_ok : Novelty.joined := (200, Some 2, Some Novelty.three, Some cmp_u).
Definition row_short : Novelty.joined := (199, Some 2, Some Novelty.three, Some cmp_u).
Definition row_single_exon : Novelty.joined :=
  (200, Some 1, Some Novelty.three, Some cmp_u).
Definition row_low_coverage : Novelty.joined :=
  (200, Some 2, Some below_three, Some cmp_u).
Definition row_known : Novelty.joined :=
  (200, Some 2, Some Novelty.three, Some cmp_eq).

(** An assembly with a comment line. *)
Definition assembly : string := comment ++ exon_a ++ exon_b ++ exon_a.

(** An assembly with an empty line between two records. *)
Definition assembly_with_empty_line : string :=
  exon_a ++ empty_line ++ exon_b.

End Samples.

Module AdapterSamples.
Import Adapter.

(** A comparator that fails at once. *)
Definition failing_shell (cmd : string) (fs : gmap string node)
  : Z * gmap string node := (1, fs).

(** A comparator that writes its output files next to [s1.gtf]. *)
Definition working_shell (cmd : string) (fs : gmap string node)
  : Z * gmap string node :=
  (0, <["cuffcmp.s1.gtf.tmap" := File "tmap"]>
        (<["cuffcmp.s1.gtf.refmap" := File "refmap"]>
           (<["cuffcmp.loci" := File "loci"]> fs))).

Definition read_tmap (content : string) : outcome (gmap string Novelty.cmp) :=
  Returned {["CUFF.1.1" := Samples.cmp_u]}.

(** The assembly lies in another directory. *)
Definition elsewhere : world :=
  {| files := {["/data/s1.gtf" := File "query"]}; calls := [] |}.

(** The working directory holds a file of the same name already. *)
Definition shadowed : world :=
  {| files := {["/data/s1.gtf" := File "query"; "s1.gtf" := File "stale"]};
     calls := [] |}.

End AdapterSamples.

Module ClassifierSamples.
Import Classifier.

(** An exact match to a known lncRNA that the reference does not hold:
    the conditions of rules 1 and 4. *)
Definition exact_and_intergenic : row :=
  Row "TCONS_1" (Some "u") None None (Some "=") (Some "ENST1") (Some "LINC1")
      "".

(** A new isoform of two different genes: the conditions of rules 2
    and 3. *)
Definition two_genes : row :=
  Row "TCONS_2" (Some "j") (Some "ENST5") (Some "GENE5")
      (Some "j") (Some "ENST1") (Some "LINC1") "".

(** A new isoform of the same gene on both sides: rule 3 only. *)
Definition same_gene : row :=
  Row "TCONS_3" (Some "j") (Some "ENST1") (Some "LINC1")
      (Some "j") (Some "ENST1") (Some "LINC1") "".

(** Contained in a known transcript: none of the conditions. *)
Definition contained : row :=
  Row "TCONS_4" (Some "c") (Some "ENST9") (Some "GENE9")
      (Some "c") (Some "ENST1") (Some "LINC1") "".

End ClassifierSamples.

Module CatalogSamples.
Import Catalog.

Definition exon_line (chrom : string) (first last : Z) (attrs : string)
  : gtf_line :=
  GtfLine (ChrStr chrom) "src" "exon" first last "." "+" "." attrs.

Definition known_attrs (gene transcript name : string) : string :=
  Samples.attr "gene_id" gene ++ Samples.attr "transcript_id" transcript
    ++ Samples.attr "gene_name" name.

Definition novel_attrs (gene transcript : string) : string :=
  Samples.attr "gene_id" gene ++ Samples.attr "transcript_id" transcript.

(** A known-lncRNA annotation in which gene [G] has exons on two
    chromosomes and gene [H] lies on the first of them. *)
Definition split_gene : list gtf_line :=
  [ exon_line "chr1" 100 200 (known_attrs "G" "G.1" "G");
    exon_line "chr1" 300 400 (known_attrs "H" "H.1" "H");
    exon_line "chr2" 500 600 (known_attrs "G" "G.2" "G") ].

(** A merged assembly of one intergenic transcript. *)
Definition one_novel : list gtf_line :=
  [ exon_line "chr5" 10 80 (novel_attrs "XLOC_5" "TCONS_5") ].

Definition one_novel_annots : gmap string Classifier.row :=
  {[ "TCONS_5" :=
       Classifier.Row "TCONS_5" (Some "u") None None (Some "u") None None
         "intergenic" ]}.

(** A known-lncRNA annotation where the name [LINC1] occurs with two
    gene identifiers. *)
Definition known_lncs : list gtf_line :=
  [ exon_line "chr1" 1000 1200 (known_attrs "ENSG1" "ENST1" "LINC1");
    exon_line "chr1" 1500 1700 (known_attrs "ENSG1" "ENST1" "LINC1");
    exon_line "chr3" 50 90 (known_attrs "ENSG7" "ENST7" "LINC1") ].

Definition novel_line_1 : gtf_line :=
  exon_line "chr1" 900 1100 (novel_attrs "XLOC_1" "TCONS_1").
Definition novel_line_2 : gtf_line :=
  exon_line "chr2" 10 80 (novel_attrs "XLOC_2" "TCONS_2").

(** Two merged novel transcripts: the first a new isoform of [LINC1],
    the second matched to a gene name the known table does not hold. *)
Definition novel_lncs : list gtf_line := [ novel_line_1; novel_line_2 ].

Definition annot (transcript gene_name : string) : Classifier.row :=
  Classifier.Row transcript (Some "j") (Some "ENST1") (Some gene_name)
    (Some "j") (Some "ENST1") (Some gene_name) "novel_isoform".

Definition annots : gmap string Classifier.row :=
  {[ "TCONS_1" := annot "TCONS_1" "LINC1";
     "TCONS_2" := annot "TCONS_2" "LINC9" ]}.

End CatalogSamples.

(** * Properties *)

Module CellFacts.

Lemma eq_lit_true c lit : Cell.eq_lit c lit = true <-> c = Some lit.
Proof.
  destruct c as [s|]; simpl.
  - rewrite String.eqb_eq. split; congruence.
  - split; discriminate.
Qed.

Lemma eq_lit_two c l1 l2 :
  Cell.eq_lit c l1 = true -> Cell.eq_lit c l2 = true -> l1 = l2.
Proof. rewrite !eq_lit_true. congruence. Qed.

End CellFacts.

Module ClassifierFacts.
Import Classifier.

Lemma classify_map x :
  classify x = map classify_row x.
Proof.
  unfold classify, classify_row, classify, assign_all, loc_assign.
  rewrite !map_map. apply map_ext. intros r. reflexivity.
Qed.

Lemma step_pending c v r :
  (forall l, c (set_classification r l) = c r) ->
  step c v (set_classification r ".") =
  if c r then set_classification r v else set_classification r ".".
Proof. intros Hc. unfold step. rewrite Hc. reflexivity. Qed.

Lemma step_done c v r l :
  String.eqb l "." = false ->
  step c v (set_classification r l) = set_classification r l.
Proof. intros Hl. unfold step, unset. cbn. rewrite Hl. reflexivity. Qed.

Lemma classify_row_steps r :
  classify_row r =
  step (fun _ => true) "not_a_lncRNA"
    (step cond6 "intronic"
      (step cond5 "antisense"
        (step cond4 "intergenic"
          (step cond3 "novel_isoform"
            (step cond2 "possible_artifact"
              (step cond1 "known_isoform" (set_classification r "."))))))).
Proof.
  unfold classify_row, classify, assign_all, loc_assign, step. cbn [map].
  rewrite andb_true_r. reflexivity.
Qed.

Lemma classify_row_spec r :
  classify_row r = set_classification r (first_match r).
Proof.
  rewrite classify_row_steps. unfold first_match.
  rewrite step_pending by reflexivity.
  destruct (cond1 r); [rewrite !step_done by reflexivity; reflexivity|].
  rewrite step_pending by reflexivity.
  destruct (cond2 r); [rewrite !step_done by reflexivity; reflexivity|].
  rewrite step_pending by reflexivity.
  destruct (cond3 r); [rewrite !step_done by reflexivity; reflexivity|].
  rewrite step_pending by reflexivity.
  destruct (cond4 r); [rewrite !step_done by reflexivity; reflexivity|].
  rewrite step_pending by reflexivity.
  destruct (cond5 r); [rewrite !step_done by reflexivity; reflexivity|].
  rewrite step_pending by reflexivity.
  destruct (cond6 r); [rewrite !step_done by reflexivity; reflexivity|].
  rewrite step_pending by reflexivity. reflexivity.
Qed.

Lemma classify_spec x :
  classify x = map (fun r => set_classification r (first_match r)) x.
Proof.
  rewrite classify_map. apply map_ext. intros r. apply classify_row_spec.
Qed.

Lemma rule1_excludes_rule3 r : cond1 r = true -> cond3 r = true -> False.
Proof.
  unfold cond1, cond3. intros H1 H3.
  pose proof (CellFacts.eq_lit_two _ _ _ H1 H3). discriminate.
Qed.

Lemma rule2_implies_rule3 r : cond2 r = true -> cond3 r = true.
Proof.
  unfold cond2, cond3. rewrite !andb_true_iff. tauto.
Qed.

Lemma rule2_excludes_rule1 r : cond2 r = true -> cond1 r = false.
Proof.
  intros H2. destruct (cond1 r) eqn:H1; [|reflexivity].
  destruct (rule1_excludes_rule3 r H1 (rule2_implies_rule3 r H2)).
Qed.

Lemma first_match_in_labels r : In (first_match r) labels.
Proof.
  unfold first_match, labels.
  destruct (cond1 r), (cond2 r), (cond3 r), (cond4 r), (cond5 r), (cond6 r);
    cbn; tauto.
Qed.

Lemma labels_NoDup : List.NoDup labels.
Proof.
  unfold labels.
  repeat (constructor; [cbn; intros H; repeat destruct H as [H|H]; try discriminate H; exact H|]).
  constructor.
Qed.

(** C1: the seven masked assignments label every row of the joined
    table with the first rule, in the order 1-7, whose condition
    holds.  A row with the condition of rule 1 is [known_isoform]
    whatever later rule it also meets (with rule 3 in particular); a
    row with the conditions of rules 2 and 3 is [possible_artifact];
    a row with none of the conditions 1-6 is [not_a_lncRNA]. *)
Theorem classify_first_match_wins (x : list row) :
  classify x = map (fun r => set_classification r (first_match r)) x
  /\ Forall (fun r =>
       (cond1 r = true ->
          classification (classify_row r) = "known_isoform")
       /\ (cond1 r = true -> cond3 r = true ->
          classification (classify_row r) = "known_isoform")
       /\ (cond2 r = true -> cond3 r = true ->
          classification (classify_row r) = "possible_artifact")
       /\ (unmatched r = true ->
          classification (classify_row r) = "not_a_lncRNA")) x.
Proof.
  split; [apply classify_spec|].
  apply Forall_forall. intros r _. rewrite classify_row_spec. cbn.
  unfold first_match, unmatched. repeat split.
  - intros ->. reflexivity.
  - intros -> _. reflexivity.
  - intros H2 _. rewrite (rule2_excludes_rule1 r H2), H2. reflexivity.
  - rewrite negb_true_iff, !orb_false_iff.
    intros [[[[[-> ->] ->] ->] ->] ->]. reflexivity.
Qed.

(** C2: every row of the classified table carries exactly one of the
    seven labels, which are pairwise distinct; the label of a row
    that meets none of the conditions 1-6 is [not_a_lncRNA]. *)
Theorem classify_exactly_one_label (x : list row) :
  List.length (classify x) = List.length x
  /\ Forall (fun r =>
       exists l, unique (fun l => In l labels /\ classification r = l) l)
       (classify x)
  /\ List.NoDup labels
  /\ List.length labels = 7%nat
  /\ Forall (fun r =>
       unmatched r = true ->
       classification (classify_row r) = "not_a_lncRNA") x.
Proof.
  split; [|split; [|split; [|split]]].
  - rewrite classify_spec. apply length_map.
  - rewrite classify_spec. apply Forall_forall. intros r Hr.
    apply list_elem_of_In, in_map_iff in Hr as [r0 [<- _]]. cbn.
    exists (first_match r0). split.
    + split; [apply first_match_in_labels|reflexivity].
    + intros l [_ <-]. reflexivity.
  - apply labels_NoDup.
  - reflexivity.
  - apply Forall_forall. intros r _. rewrite classify_row_spec. cbn.
    unfold first_match, unmatched.
    rewrite negb_true_iff, !orb_false_iff.
    intros [[[[[-> ->] ->] ->] ->] ->]. reflexivity.
Qed.

Example classify_samples :
  map classification
      (classify [ ClassifierSamples.exact_and_intergenic;
                  ClassifierSamples.two_genes;
                  ClassifierSamples.same_gene;
                  ClassifierSamples.contained ])
  = [ "known_isoform"; "possible_artifact"; "novel_isoform"; "not_a_lncRNA" ].
Proof. reflexivity. Qed.

End ClassifierFacts.


Module TextFacts.
Import Text.

Lemma readlines_nonempty content :
  Forall (fun line => String.length line <> 0%nat) (readlines content).
Proof.
  induction content as [|c rest IH]; cbn; [constructor|].
  destruct (Ascii.eqb c newline).
  - constructor; [cbn; discriminate|exact IH].
  - destruct (readlines rest) as [|l ls].
    + constructor; [cbn; discriminate|constructor].
    + inversion IH; subst. constructor; [cbn; discriminate|assumption].
Qed.

Lemma append_empty_r s : (s ++ "")%string = s.
Proof.
  induction s as [|c s IH]; [reflexivity|].
  change (String c (s ++ "") = String c s). congruence.
Qed.

Lemma concat_cons x xs :
  String.concat "" (x :: xs) = (x ++ String.concat "" xs)%string.
Proof.
  destruct xs; cbn; [symmetry; apply append_empty_r|reflexivity].
Qed.

(** The lines of a file, put end to end, are the file. *)
Lemma readlines_concat content :
  String.concat "" (readlines content) = content.
Proof.
  induction content as [|c rest IH]; [reflexivity|].
  cbn [readlines]. destruct (Ascii.eqb c newline).
  - rewrite concat_cons, IH. reflexivity.
  - destruct (readlines rest) as [|l ls].
    + cbn in *. congruence.
    + rewrite concat_cons in *.
      change (String c (l ++ String.concat "" ls) = String c rest).
      congruence.
Qed.

End TextFacts.

Module LineSelectorFacts.
Import LineSelector.

Lemma loop_well_formed keep lines written :
  well_formed lines ->
  loop keep lines written =
  ((written ++ List.filter (selected keep) lines)%list, Returned tt).
Proof.
  revert written. induction lines as [|line rest IH]; intros written Hwf.
  - cbn. rewrite app_nil_r. reflexivity.
  - inversion Hwf as [|? ? Hline Hrest]; subst. cbn. unfold selected.
    destruct (skipped line) eqn:Hs; cbn.
    + apply IH, Hrest.
    + destruct (Hline eq_refl) as [t Ht]. rewrite Ht.
      destruct (bool_decide (t ∈ keep)).
      * rewrite IH by exact Hrest. rewrite <- app_assoc. reflexivity.
      * apply IH, Hrest.
Qed.

Lemma loop_returned keep lines written written' :
  loop keep lines written = (written', Returned tt) -> well_formed lines.
Proof.
  revert written. induction lines as [|line rest IH]; intros written H.
  - constructor.
  - cbn in H. destruct (skipped line) eqn:Hs.
    + constructor; [intros; congruence|exact (IH _ H)].
    + destruct (Text.attr_value "transcript_id" line) as [t|] eqn:Ht;
        [|discriminate].
      constructor; [intros _; rewrite Ht; eauto|].
      destruct (bool_decide (t ∈ keep)); exact (IH _ H).
Qed.

Lemma selected_iff keep line :
  selected keep line = true <->
  skipped line = false /\
  exists t, Text.attr_value "transcript_id" line = Some t /\ t ∈ keep.
Proof.
  unfold selected. rewrite andb_true_iff, negb_true_iff.
  destruct (Text.attr_value "transcript_id" line) as [t|].
  - rewrite bool_decide_eq_true. split.
    + intros [? ?]. eauto.
    + intros [? [t' [[= <-] ?]]]. auto.
  - split; [intros [_ [=]]|intros [_ [t' [[=] _]]]].
Qed.

Lemma loop_empty_line keep lines written :
  In (String Text.newline EmptyString) lines ->
  (loop keep lines written).2 = Raised IndexError.
Proof.
  revert written. induction lines as [|line rest IH]; intros written Hin.
  - destruct Hin.
  - cbn. destruct Hin as [->|Hin].
    + reflexivity.
    + destruct (skipped line); [eauto|].
      destruct (Text.attr_value "transcript_id" line) as [t|]; [|reflexivity].
      destruct (bool_decide (t ∈ keep)); eauto.
Qed.

End LineSelectorFacts.

Module SelectorTheorems.
Import LineSelector LineSelectorFacts.

(** C6: on an input whose every non-skipped line carries a
    [transcript_id], the selector returns, and what it wrote is the
    input lines it extracted an identifier of the keep-set from, each
    as it was read and in the order of the input. *)
Theorem selector_writes_selected_lines (gtf_in : string) (keep : gset string) :
  well_formed (Text.readlines gtf_in) ->
  (_filter_gtf_by_transcript gtf_in keep).2 = Returned tt
  /\ (_filter_gtf_by_transcript gtf_in keep).1
     = List.filter (selected keep) (Text.readlines gtf_in)
  /\ (forall line,
        In line (_filter_gtf_by_transcript gtf_in keep).1 <->
        In line (Text.readlines gtf_in)
        /\ skipped line = false
        /\ exists t, Text.attr_value "transcript_id" line = Some t
                     /\ t ∈ keep)
  /\ String.concat "" (Text.readlines gtf_in) = gtf_in.
Proof.
  intros Hwf. unfold _filter_gtf_by_transcript.
  rewrite (loop_well_formed keep _ [] Hwf). cbn [fst snd app].
  split; [reflexivity|]. split; [reflexivity|]. split.
  - intros line. rewrite filter_In, selected_iff. reflexivity.
  - apply TextFacts.readlines_concat.
Qed.

Lemma selector_writes_selected_lines_witness :
  (_filter_gtf_by_transcript Samples.assembly {["CUFF.1.1"]}).1
  = [Samples.exon_a; Samples.exon_a].
Proof.
  destruct (selector_writes_selected_lines Samples.assembly {["CUFF.1.1"]})
    as (_ & -> & _).
  - unfold well_formed.
    repeat (apply Forall_cons_2 || apply Forall_nil_2);
      intros H; vm_compute in H |- *; first [discriminate H | eauto].
  - vm_compute. reflexivity.
Defined.

(** C7: an empty line of the input is the one-character string of
    its newline, so the length test of line 144 does not catch it
    and the subscript of line 148 raises [IndexError]. *)
Theorem selector_raises_on_empty_line (gtf_in : string) (keep : gset string) :
  In Samples.empty_line (Text.readlines gtf_in) ->
  (_filter_gtf_by_transcript gtf_in keep).2 = Raised IndexError.
Proof. apply loop_empty_line. Qed.

Lemma selector_raises_on_empty_line_witness :
  (_filter_gtf_by_transcript Samples.assembly_with_empty_line
     {["CUFF.1.1"; "CUFF.2.1"]}).2 = Raised IndexError.
Proof.
  apply selector_raises_on_empty_line. vm_compute. right. left. reflexivity.
Defined.

End SelectorTheorems.

Module FloatFacts.
Import Frame.

Ltac float_cases :=
  repeat match goal with
         | f : spec_float |- _ => destruct f
         | s : bool |- _ => destruct s
         end;
  cbn; try congruence; try discriminate.

Ltac order_cases :=
  repeat match goal with
         | |- context [Z.compare ?a ?b] =>
             destruct (Z.compare_spec a b); subst
         | H : context [Z.compare ?a ?b] |- _ =>
             destruct (Z.compare_spec a b); subst
         | |- context [Pos.compare_cont Eq ?a ?b] =>
             change (Pos.compare_cont Eq a b) with (Pos.compare a b);
             destruct (Pos.compare_spec a b); subst
         | H : context [Pos.compare_cont Eq ?a ?b] |- _ =>
             change (Pos.compare_cont Eq a b) with (Pos.compare a b) in H;
             destruct (Pos.compare_spec a b); subst
         end;
  cbn in *; try congruence; try discriminate; try lia.

Lemma SFleb_refl a : not_nan a -> SFleb a a = true.
Proof.
  unfold not_nan, SFleb, SFcompare. intros Ha.
  float_cases; order_cases.
Qed.

Lemma SFltb_leb a b : SFltb a b = true -> SFleb a b = true.
Proof.
  unfold SFltb, SFleb. destruct (SFcompare a b) as [[]|]; congruence.
Qed.

Lemma SFltb_false_leb a b :
  not_nan a -> not_nan b -> SFltb a b = false -> SFleb b a = true.
Proof.
  unfold not_nan, SFltb, SFleb, SFcompare. intros Ha Hb.
  float_cases; intros; order_cases.
Qed.

Lemma SFleb_trans a b c :
  SFleb a b = true -> SFleb b c = true -> SFleb a c = true.
Proof.
  unfold SFleb, SFcompare.
  float_cases; intros; order_cases.
Qed.

Lemma SFleb_neg_infinity a :
  SFleb a (S754_infinity true) = true -> a = S754_infinity true.
Proof. unfold SFleb, SFcompare. float_cases. Qed.

Lemma SFleb_not_nan a b : SFleb a b = true -> not_nan a /\ not_nan b.
Proof. unfold not_nan, SFleb, SFcompare. float_cases; split; discriminate. Qed.

End FloatFacts.

Module FrameFacts.
Import Frame FloatFacts.

Lemma groupby_cons {A} (kv : Cell.t * A) rows :
  groupby (kv :: rows) =
  match kv.1 with
  | Some k => <[k := kv.2 :: default [] (groupby rows !! k)]> (groupby rows)
  | None => groupby rows
  end.
Proof. reflexivity. Qed.

Lemma group_of_cons {A} k (kv : Cell.t * A) rows :
  group_of k (kv :: rows) =
  if decide (kv.1 = Some k) then kv.2 :: group_of k rows
  else group_of k rows.
Proof. unfold group_of. cbn. repeat case_decide; done. Qed.

Lemma groupby_lookup {A} (rows : list (Cell.t * A)) (k : string) :
  groupby rows !! k =
  match group_of k rows with
  | [] => None
  | l => Some l
  end.
Proof.
  induction rows as [|[k' v] rows IH]; [reflexivity|].
  rewrite groupby_cons, group_of_cons. cbn [fst snd].
  destruct k' as [k0|]; case_decide as Hk; simplify_eq.
  - rewrite lookup_insert_eq, IH.
    destruct (group_of k rows); reflexivity.
  - rewrite lookup_insert_ne by congruence. exact IH.
  - exact IH.
Qed.

Lemma groupby_lookup_Some {A} (rows : list (Cell.t * A)) k :
  group_of k rows <> [] -> groupby rows !! k = Some (group_of k rows).
Proof.
  intros H. rewrite groupby_lookup. destruct (group_of k rows); congruence.
Qed.

Lemma groupby_lookup_None {A} (rows : list (Cell.t * A)) k :
  group_of k rows = [] -> groupby rows !! k = None.
Proof. intros H. rewrite groupby_lookup, H. reflexivity. Qed.

Lemma group_of_map {A B} (key : A -> Cell.t) (val : A -> B) k (l : list A) :
  group_of k (map (fun a => (key a, val a)) l)
  = map val (List.filter (fun a => bool_decide (key a = Some k)) l).
Proof.
  induction l as [|a l IH]; [reflexivity|].
  cbn [map List.filter]. rewrite group_of_cons. cbn [fst snd].
  case_decide as H.
  - rewrite bool_decide_eq_true_2 by exact H. cbn. f_equal. exact IH.
  - rewrite bool_decide_eq_false_2 by exact H. exact IH.
Qed.

Lemma join_lookup {A B} (l : gmap string A) (r : gmap string B) k :
  join l r !! k = (fun a => (a, r !! k)) <$> l !! k.
Proof.
  unfold join. rewrite map_lookup_imap. destruct (l !! k); reflexivity.
Qed.

Lemma wrap64_small z :
  -9223372036854775808 <= z < 9223372036854775808 -> wrap64 z = z.
Proof. intros H. unfold wrap64. rewrite Z.mod_small; lia. Qed.

Lemma wrap64_range z :
  -9223372036854775808 <= wrap64 z < 9223372036854775808.
Proof.
  unfold wrap64.
  pose proof (Z.mod_pos_bound (z + 9223372036854775808)
                18446744073709551616 eq_refl). lia.
Qed.

Lemma wrap64_add_l a b : wrap64 (wrap64 a + b) = wrap64 (a + b).
Proof.
  unfold wrap64. f_equal.
  replace ((a + 9223372036854775808) mod 18446744073709551616
           - 9223372036854775808 + b + 9223372036854775808)
    with ((a + 9223372036854775808) mod 18446744073709551616 + b) by lia.
  rewrite Zplus_mod_idemp_l. f_equal. lia.
Qed.

Lemma wrap64_add_r a b : wrap64 (a + wrap64 b) = wrap64 (a + b).
Proof. rewrite Z.add_comm, wrap64_add_l. f_equal. lia. Qed.

Lemma sum_from a vs :
  foldl (fun acc v => wrap64 (acc + v)) (wrap64 a) vs
  = wrap64 (a + exact_sum vs).
Proof.
  revert a. induction vs as [|v vs IH]; intros a; cbn [foldl exact_sum foldr].
  - f_equal. lia.
  - rewrite wrap64_add_l, IH. fold (exact_sum vs). f_equal. lia.
Qed.

(** The int64 sum is the sum of the integers, reduced modulo 2^64. *)
Lemma sum_wraps vs : sum vs = wrap64 (exact_sum vs).
Proof.
  unfold sum. change 0 with (wrap64 0) at 1. rewrite sum_from. reflexivity.
Qed.

Lemma wrap64_exact_sum_map {A} (f : A -> Z) (l : list A) :
  wrap64 (exact_sum (map (fun a => wrap64 (f a)) l))
  = wrap64 (exact_sum (map f l)).
Proof.
  induction l as [|a l IH]; [reflexivity|].
  cbn [map exact_sum foldr]. fold (exact_sum (map (fun a => wrap64 (f a)) l)).
  fold (exact_sum (map f l)).
  rewrite wrap64_add_l, <- wrap64_add_r, IH, wrap64_add_r. reflexivity.
Qed.

Lemma exact_sum_ones {A} (l : list A) :
  exact_sum (map (fun _ => 1) l) = Z.of_nat (List.length l).
Proof.
  induction l as [|a l IH]; [reflexivity|].
  cbn [map exact_sum foldr List.length] in *. unfold exact_sum in IH. lia.
Qed.

Lemma sum_ones {A} (l : list A) :
  sum (map (fun _ => 1) l) = wrap64 (Z.of_nat (List.length l)).
Proof. rewrite sum_wraps, exact_sum_ones. reflexivity. Qed.

Lemma max_loop_spec vs n m :
  not_nan m ->
  let st := foldl max_step (n, m) vs in
  not_nan st.2
  /\ SFleb m st.2 = true
  /\ (st.2 = m \/ In st.2 vs)
  /\ (forall v, In v vs -> not_nan v -> SFleb v st.2 = true)
  /\ (n <= st.1)%nat
  /\ (st.1 = n <-> Forall (fun v => v = S754_nan) vs).
Proof.
  revert n m. induction vs as [|v vs IH]; intros n m Hm; cbn [foldl].
  - cbn. repeat split; auto using SFleb_refl.
  - destruct (is_nan v) eqn:Hnan.
    + assert (v = S754_nan) as -> by (destruct v; cbn in Hnan; congruence).
      cbn [max_step is_nan].
      destruct (IH n m Hm) as (H1 & H2 & H3 & H4 & H5 & H6).
      repeat split; auto.
      * destruct H3; [left|right; right]; assumption.
      * intros v [<-|Hin] Hv; [destruct Hv; reflexivity|auto].
      * intros H. constructor; [reflexivity|apply H6, H].
      * intros H. apply H6. inversion H; assumption.
    + assert (Hv : not_nan v) by (intros ->; discriminate).
      set (m' := if SFltb m v then v else m).
      assert (Hstep : max_step (n, m) v = (S n, m'))
        by (unfold max_step; rewrite Hnan; reflexivity).
      rewrite Hstep.
      assert (Hm' : not_nan m') by (subst m'; destruct (SFltb m v); auto).
      assert (Hmm' : SFleb m m' = true).
      { subst m'. destruct (SFltb m v) eqn:E;
          auto using SFltb_leb, SFleb_refl. }
      assert (Hvm' : SFleb v m' = true).
      { subst m'. destruct (SFltb m v) eqn:E;
          auto using SFltb_false_leb, SFleb_refl. }
      destruct (IH (S n) m' Hm') as (H1 & H2 & H3 & H4 & H5 & H6).
      refine (conj H1 (conj _ (conj _ (conj _ (conj _ _))))).
      * eauto using SFleb_trans.
      * destruct H3 as [H3|H3]; [|right; right; exact H3].
        rewrite H3. subst m'. destruct (SFltb m v); [right; left|left];
          reflexivity.
      * intros v' [<-|Hin] Hv'; eauto using SFleb_trans.
      * lia.
      * split; [intros H; exfalso; lia|].
        intros H. inversion H; subst. destruct Hv. reflexivity.
Qed.

(** What [max] returns for a group: NaN when every entry is NaN;
    otherwise an entry of the group that is not NaN and that no
    entry exceeds. *)
Lemma max_spec vs :
  (Forall (fun v => v = S754_nan) vs -> max vs = S754_nan)
  /\ (Exists not_nan vs ->
      In (max vs) vs /\ not_nan (max vs)
      /\ forall v, In v vs -> not_nan v -> SFleb v (max vs) = true).
Proof.
  assert (Hinf : not_nan (S754_infinity true)) by discriminate.
  pose proof (max_loop_spec vs O _ Hinf) as (H1 & H2 & H3 & H4 & H5 & H6).
  unfold max.
  destruct (foldl max_step (O, S754_infinity true) vs) as [nobs maxx].
  cbn [fst snd] in *. split.
  - intros Hall. apply H6 in Hall. subst nobs. reflexivity.
  - intros Hsome. apply Exists_exists in Hsome as (v & Hin & Hv).
    apply list_elem_of_In in Hin.
    destruct (Nat.eqb_spec nobs 0) as [E|E].
    + apply H6 in E. rewrite Forall_forall in E.
      destruct Hv. apply E, list_elem_of_In, Hin.
    + repeat split; auto.
      destruct H3 as [->|H3]; [|exact H3].
      rewrite <- (SFleb_neg_infinity v (H4 v Hin Hv)). exact Hin.
Qed.

End FrameFacts.

Module NoveltyFacts.
Import Novelty FrameFacts.

Lemma exon_rows_built float x tbl :
  exon_rows float x = Returned tbl ->
  Forall2 (built_from float) (List.filter is_exon x) tbl.
Proof.
  revert tbl. induction x as [|r x IH]; intros tbl H; cbn in H.
  - injection H as <-. constructor.
  - cbn [List.filter]. unfold is_exon at 1.
    destruct (String.eqb (feature r) "exon"); [|auto].
    destruct (astype_float float (Text.attr_value "cov" (attrs r)))
      as [cov|] eqn:Hcov; cbn in H; [|discriminate].
    destruct (exon_rows float x) as [rest|]; cbn in H; [|discriminate].
    injection H as <-. constructor; [|auto].
    repeat split; assumption.
Qed.

Lemma exon_rows_total float x :
  cov_parses float x -> exists tbl, exon_rows float x = Returned tbl.
Proof.
  induction 1 as [|r x Hr _ [rest IH]]; cbn; [eauto|].
  unfold is_exon in Hr. destruct (String.eqb (feature r) "exon"); [|eauto].
  unfold astype_float.
  destruct (Text.attr_value "cov" (attrs r)) as [s|]; cbn.
  - destruct (Hr eq_refl s eq_refl) as [f ->]. cbn. rewrite IH. cbn. eauto.
  - rewrite IH. cbn. eauto.
Qed.

Lemma Forall2_filter_both {A B} (R : A -> B -> Prop) p q l l' :
  (forall a b, R a b -> p a = q b) ->
  Forall2 R l l' -> Forall2 R (List.filter p l) (List.filter q l').
Proof.
  intros Hpq. induction 1 as [|a b l l' Hab _ IH]; cbn; [constructor|].
  rewrite <- (Hpq a b Hab). destruct (p a); [constructor|]; assumption.
Qed.

Lemma filter_filter_and {A} (p q : A -> bool) l :
  List.filter q (List.filter p l) = List.filter (fun a => p a && q a) l.
Proof.
  induction l as [|a l IH]; cbn; [reflexivity|].
  destruct (p a); cbn; [destruct (q a)|]; congruence.
Qed.

(** The rows of [x] after lines 70-76 that belong to transcript [T]
    are built from its exon records, one for one. *)
Lemma exon_rows_of_transcript float x tbl T :
  exon_rows float x = Returned tbl ->
  Forall2 (built_from float) (exon_records T x)
    (List.filter (fun e => bool_decide (transcript_id e = Some T)) tbl).
Proof.
  intros H. apply exon_rows_built in H. unfold exon_records.
  rewrite <- filter_filter_and. fold is_exon.
  apply Forall2_filter_both; [|exact H].
  intros r e (Ht & _). rewrite Ht. reflexivity.
Qed.

Lemma summary_lookup x cc T :
  summary x cc !! T =
  let E := List.filter (fun e => bool_decide (transcript_id e = Some T)) x in
  match E with
  | [] => None
  | _ => Some (Frame.sum (map length E), Some (Frame.sum (map exons E)),
               Some (Frame.max (map coverage E)), cc !! T)
  end.
Proof.
  unfold summary, t_length, t_num_exons, t_coverage, joined.
  rewrite !join_lookup, !lookup_fmap, !groupby_lookup, !group_of_map.
  cbn zeta.
  destruct (List.filter _ x) as [|e E]; reflexivity.
Qed.


Lemma built_columns float E E' :
  Forall2 (built_from float) E E' ->
  map length E'
  = map (fun r => Frame.wrap64 (end_ r - start r + 1)) E
  /\ map exons E' = map (fun _ => 1) E
  /\ Forall2 (fun r c =>
       astype_float float (Text.attr_value "cov" (attrs r)) = Returned c)
       E (map coverage E').
Proof.
  induction 1 as [|r e E E' (Ht & Hl & He & Hc) _ (IH1 & IH2 & IH3)]; cbn.
  - repeat split; constructor.
  - rewrite Hl, He, IH1, IH2, wrap64_add_l.
    repeat split. constructor; assumption.
Qed.

(** The summary row of a transcript, from the table of lines 67-76. *)
Lemma summary_of_exon_rows
  (float : string -> option spec_float) (x : list gtf_row)
  (tbl : list exon) (cc : gmap string cmp) (T : string) :
  exon_rows float x = Returned tbl ->
  (exon_records T x = [] -> summary tbl cc !! T = None)
  /\ (exon_records T x <> [] ->
      exists row covs,
        summary tbl cc !! T = Some row
        /\ y_length row
           = Frame.wrap64
               (Frame.exact_sum (map (fun r => end_ r - start r + 1)
                                     (exon_records T x)))
        /\ y_exons row
           = Some (Frame.wrap64 (Z.of_nat (List.length (exon_records T x))))
        /\ Forall2 (fun r c =>
             astype_float float (Text.attr_value "cov" (attrs r))
             = Returned c) (exon_records T x) covs
        /\ y_coverage row = Frame.max covs
        /\ (Forall (fun c => c = S754_nan) covs ->
            y_coverage row = S754_nan)
        /\ (Exists Frame.not_nan covs ->
            In (y_coverage row) covs
            /\ forall c, In c covs -> Frame.not_nan c ->
                         SFleb c (y_coverage row) = true)).
Proof.
  intros Hx. pose proof (exon_rows_of_transcript float x tbl T Hx) as HE.
  rewrite summary_lookup. cbn zeta.
  remember (List.filter (fun e => bool_decide (transcript_id e = Some T)) tbl)
    as E' eqn:HE'. clear HE'.
  destruct (built_columns float _ _ HE) as (Hl & He & Hc).
  split.
  - intros HE0. rewrite HE0 in HE. inversion HE. reflexivity.
  - intros HE0. destruct E' as [|e E2].
    { inversion HE as [HE1|]; subst. congruence. }
    eexists _, (map coverage (e :: E2)). split; [reflexivity|].
    unfold y_length, y_exons, y_coverage. cbn [fst snd default].
    rewrite Hl, He, sum_ones, sum_wraps, wrap64_exact_sum_map.
    destruct (max_spec (map coverage (e :: E2))) as [Hnan Hmax].
    repeat split; auto.
    + apply Hmax; assumption.
    + apply Hmax; assumption.
Qed.

(** C5, as the code has it: when the coverage values of the assembly
    can be read, the aggregator returns, and for the exon records [E]
    of a transcript the summary row has as length the sum of
    [end - start + 1] over [E] reduced modulo 2^64 into the int64
    range, which is that sum whenever it lies in the range; as exon
    count the size of [E], reduced the same way; and as coverage the
    largest of the coverage values declared on [E] (entries that are
    NaN apart).  A transcript without exon records has no summary
    row. *)
Theorem aggregator_summary
  (float : string -> option spec_float) (x : list gtf_row)
  (cc : gmap string cmp) (T : string) :
  cov_parses float x ->
  exists tbl,
    exon_rows float x = Returned tbl
    /\ (exon_records T x = [] -> summary tbl cc !! T = None)
    /\ (exon_records T x <> [] ->
        exists row covs,
          summary tbl cc !! T = Some row
          /\ y_length row
             = Frame.wrap64
                 (Frame.exact_sum (map (fun r => end_ r - start r + 1)
                                       (exon_records T x)))
          /\ (-9223372036854775808
              <= Frame.exact_sum (map (fun r => end_ r - start r + 1)
                                      (exon_records T x))
              < 9223372036854775808 ->
              y_length row
              = Frame.exact_sum (map (fun r => end_ r - start r + 1)
                                     (exon_records T x)))
          /\ y_exons row
             = Some (Frame.wrap64
                       (Z.of_nat (List.length (exon_records T x))))
          /\ (Z.of_nat (List.length (exon_records T x))
              < 9223372036854775808 ->
              y_exons row = Some (Z.of_nat (List.length (exon_records T x))))
          /\ Forall2 (fun r c =>
               astype_float float (Text.attr_value "cov" (attrs r))
               = Returned c) (exon_records T x) covs
          /\ y_coverage row = Frame.max covs
          /\ (Forall (fun c => c = S754_nan) covs ->
              y_coverage row = S754_nan)
          /\ (Exists Frame.not_nan covs ->
              In (y_coverage row) covs
              /\ forall c, In c covs -> Frame.not_nan c ->
                           SFleb c (y_coverage row) = true)).
Proof.
  intros Hcov. destruct (exon_rows_total float x Hcov) as [tbl Htbl].
  exists tbl. split; [exact Htbl|].
  destruct (summary_of_exon_rows float x tbl cc T Htbl) as [Hnone Hsome].
  split; [exact Hnone|]. intros HE.
  destruct (Hsome HE) as (row & covs & H1 & H2 & H3 & H4 & H5 & H6 & H7).
  exists row, covs. split; [exact H1|]. split; [exact H2|]. split.
  { intros Hrange. rewrite H2. apply wrap64_small, Hrange. }
  split; [exact H3|]. split.
  { intros Hrange. rewrite H3. f_equal. apply wrap64_small. lia. }
  auto.
Qed.

Lemma aggregator_summary_witness :
  exists tbl row,
    exon_rows Samples.float Samples.assembly_rows = Returned tbl
    /\ summary tbl {["CUFF.1.1" := Samples.cmp_u]} !! "CUFF.1.1" = Some row
    /\ y_length row = 272 /\ y_exons row = Some 2
    /\ y_coverage row = Samples.seven_and_a_half.
Proof.
  destruct (aggregator_summary Samples.float Samples.assembly_rows
              {["CUFF.1.1" := Samples.cmp_u]} "CUFF.1.1")
    as (tbl & Htbl & _ & H).
  - unfold cov_parses.
    repeat (apply Forall_cons_2 || apply Forall_nil_2);
      intros He s Hs; vm_compute in He, Hs;
      first [discriminate He | injection Hs as <-; vm_compute; eauto].
  - destruct H as (row & covs & H1 & _ & H2 & _ & H3 & H4 & H5 & _);
      [vm_compute; discriminate|].
    exists tbl, row. split; [exact Htbl|]. split; [exact H1|]. split.
    { apply H2. vm_compute. split; [discriminate|reflexivity]. }
    split; [apply H3; reflexivity|].
    rewrite H5. vm_compute in H4.
    inversion H4 as [|? c1 ? ? Hc1 H4']; subst.
    inversion H4' as [|? c2 ? ? Hc2 H4'']; subst.
    inversion H4''; subst.
    injection Hc1 as <-. injection Hc2 as <-. reflexivity.
Defined.

(** C5, as stated, fails: two exons of lengths 2^63 - 1 and 2 give
    the summary row the length -(2^63 - 1), not their sum 2^63 + 1. *)
Lemma aggregator_length_wraps :
  ~ length_is_exact_sum Samples.float Samples.long_exons ∅ "CUFF.1.1".
Proof.
  intros (tbl & row & Htbl & Hrow & Hlen).
  assert (tbl = [ Exon (Some "CUFF.1") (Some "CUFF.1.1")
                    9223372036854775807 1 Samples.five;
                  Exon (Some "CUFF.1") (Some "CUFF.1.1")
                    2 1 Samples.seven_and_a_half ]) as ->.
  { vm_compute in Htbl. injection Htbl as <-. reflexivity. }
  rewrite summary_lookup in Hrow. vm_compute in Hrow.
  injection Hrow as <-. vm_compute in Hlen. discriminate Hlen.
Qed.

Lemma find_novel_transcripts_returns float x gtf_in cc tbl :
  exon_rows float x = Returned tbl ->
  find_novel_transcripts float x gtf_in cc
  = Returned (summary tbl cc,
              LineSelector._filter_gtf_by_transcript gtf_in
                (dom (novel (summary tbl cc)))).
Proof. intros H. unfold find_novel_transcripts. rewrite H. reflexivity. Qed.

Lemma passes_iff (r : joined) :
  passes r = true <->
  200 <= y_length r
  /\ (exists n, y_exons r = Some n /\ 1 < n)
  /\ SFleb three (y_coverage r) = true
  /\ (exists c, y_class_code r = Some c /\ In c ["u"; "j"; "i"; "x"]).
Proof.
  unfold passes. rewrite !andb_true_iff, Z.leb_le.
  assert (H1 : match y_exons r with Some n => 1 <? n | None => false end
               = true <-> exists n, y_exons r = Some n /\ 1 < n).
  { destruct (y_exons r) as [n|].
    - rewrite Z.ltb_lt. split; [eauto|]. intros (n' & [= <-] & H). exact H.
    - split; [discriminate|]. intros (n' & [=] & _). }
  assert (H2 : Cell.isin (y_class_code r) ["u"; "j"; "i"; "x"] = true
               <-> exists c, y_class_code r = Some c
                             /\ In c ["u"; "j"; "i"; "x"]).
  { unfold Cell.isin. destruct (y_class_code r) as [c|].
    - rewrite existsb_exists. split.
      + intros (l & Hin & Heq). apply String.eqb_eq in Heq. subst. eauto.
      + intros (c' & [= <-] & Hin). exists c.
        split; [exact Hin|apply String.eqb_refl].
    - split; [discriminate|]. intros (c' & [=] & _). }
  rewrite H1, H2. tauto.
Qed.

(** C3: a transcript is in the output of the novelty filter exactly
    when its row of the joined table meets the four conditions; a
    transcript without a comparison row is not in the output; each
    of the four conditions excludes a row that meets the other
    three. *)
Theorem novelty_filter_conjunction :
  (forall (y : gmap string joined) (T : string),
     T ∈ dom (novel y) <->
     exists row, y !! T = Some row
       /\ 200 <= y_length row
       /\ (exists n, y_exons row = Some n /\ 1 < n)
       /\ SFleb three (y_coverage row) = true
       /\ (exists c, y_class_code row = Some c
                     /\ In c ["u"; "j"; "i"; "x"]))
  /\ (forall (x : list exon) (cc : gmap string cmp) (T : string),
        cc !! T = None -> T ∉ dom (novel (summary x cc)))
  /\ passes Samples.row_ok = true
  /\ passes Samples.row_short = false
  /\ passes Samples.row_single_exon = false
  /\ passes Samples.row_low_coverage = false
  /\ passes Samples.row_known = false.
Proof.
  assert (Hiff : forall (y : gmap string joined) (T : string),
     T ∈ dom (novel y) <-> exists row, y !! T = Some row /\ passes row = true).
  { intros y T. unfold novel. rewrite elem_of_dom. unfold is_Some.
    split.
    - intros [row H]. apply map_lookup_filter_Some in H. eauto.
    - intros (row & H1 & H2). exists row.
      apply map_lookup_filter_Some. auto. }
  split; [|split].
  - intros y T. rewrite Hiff. split.
    + intros (row & H1 & H2). exists row. split; [exact H1|].
      apply passes_iff, H2.
    + intros (row & H1 & H2). exists row. split; [exact H1|].
      apply passes_iff, H2.
  - intros x cc T Hcc. rewrite Hiff. intros (row & H1 & H2).
    rewrite summary_lookup in H1. cbn zeta in H1.
    destruct (List.filter _ x); [discriminate|].
    injection H1 as <-. rewrite Hcc in H2.
    unfold passes, y_class_code in H2. cbn in H2.
    rewrite andb_false_r in H2. discriminate.
  - repeat split; vm_compute; reflexivity.
Qed.

End NoveltyFacts.

Module AdapterFacts.
Import Adapter.

Lemma remove_each_lookup names (fs : gmap string node) name :
  remove_each names fs !! name =
  if bool_decide (name ∈ names) then None else fs !! name.
Proof.
  revert fs. induction names as [|n names IH]; intros fs.
  - reflexivity.
  - change (remove_each (n :: names) fs)
      with (remove_each names (delete n fs)).
    rewrite IH. destruct (decide (n = name)) as [->|Hne].
    + rewrite lookup_delete_eq.
      rewrite (bool_decide_eq_true_2 (name ∈ name :: names))
        by (apply elem_of_cons; left; reflexivity).
      destruct (bool_decide (name ∈ names)); reflexivity.
    + rewrite lookup_delete_ne by exact Hne.
      destruct (decide (name ∈ names)) as [Hin|Hin].
      * rewrite !bool_decide_eq_true_2; [reflexivity|apply elem_of_cons; right; exact Hin|exact Hin].
      * rewrite !bool_decide_eq_false_2; [reflexivity| |exact Hin].
        intros [?|?]%elem_of_cons; congruence.
Qed.

Lemma glob_cuffcmp_elem (fs : gmap string node) name :
  name ∈ glob_cuffcmp fs <-> junk name = true /\ is_Some (fs !! name).
Proof.
  unfold glob_cuffcmp.
  rewrite list_elem_of_In, filter_In, <- list_elem_of_In, elem_of_elements,
    elem_of_dom.
  tauto.
Qed.

(** After the loop of lines 127-128 no name of the pattern is left,
    and every other entry is as before. *)
Lemma remove_junk_lookup (fs : gmap string node) name :
  remove_each (glob_cuffcmp fs) fs !! name =
  if junk name then None else fs !! name.
Proof.
  rewrite remove_each_lookup.
  destruct (junk name) eqn:Hj.
  - destruct (fs !! name) as [n|] eqn:Hn.
    + rewrite bool_decide_eq_true_2; [reflexivity|].
      apply glob_cuffcmp_elem. rewrite Hn. eauto.
    + destruct (bool_decide _); reflexivity.
  - rewrite bool_decide_eq_false_2; [reflexivity|].
    rewrite glob_cuffcmp_elem. intros [? _]. congruence.
Qed.

Lemma link_query_created gtf fs fs' :
  link_query gtf fs = (fs', Returned true) ->
  os_path_exists fs (basename gtf) = false
  /\ fs !! basename gtf = None
  /\ fs' = <[basename gtf := Symlink gtf]> fs.
Proof.
  unfold link_query, os_symlink.
  destruct (os_path_exists fs (basename gtf)); cbn; [intros [=]|].
  destruct (fs !! basename gtf); [intros [=]|].
  destruct (String.eqb (basename gtf) ""); intros [= <-]; auto.
Qed.

Lemma link_query_existing gtf fs :
  os_path_exists fs (basename gtf) = true ->
  link_query gtf fs = (fs, Returned false).
Proof. unfold link_query. intros ->. reflexivity. Qed.

(** C4, as the code has it: when the adapter returns, no file of the
    pattern [cuffcmp.*] is left in the working directory and the
    link it created is gone; when the comparator exits with a
    non-zero status the adapter raises and the filesystem is the one
    the comparator left, nothing removed; and the adapter does return
    when the comparator exits with status zero, its table can be read
    and the link, if one was made, is still in place. *)
Theorem adapter_cleanup_on_return
  (shell : string -> gmap string node -> Z * gmap string node)
  (read_tmap : string -> outcome (gmap string Novelty.cmp))
  (ref_gtf gtf : string) (w : world) :
  (forall w' class_codes,
     _get_cuffcompare_class_codes shell read_tmap ref_gtf gtf w
     = (w', Returned class_codes) ->
     (forall name, junk name = true -> files w' !! name = None)
     /\ ((link_query gtf (files w)).2 = Returned true ->
         files w' !! basename gtf = None))
  /\ (forall fs1 created status fs2,
        link_query gtf (files w) = (fs1, Returned created) ->
        shell (command ref_gtf (basename gtf))
              (open_w "cuffcmp.stderr" (open_w "cuffcmp.stdout" fs1))
        = (status, fs2) ->
        status <> 0 ->
        (_get_cuffcompare_class_codes shell read_tmap ref_gtf gtf w).2
        = Raised (CalledProcessError status)
        /\ files (_get_cuffcompare_class_codes shell read_tmap ref_gtf gtf w).1
           = fs2)
  /\ (forall fs1 created fs2 class_codes,
        link_query gtf (files w) = (fs1, Returned created) ->
        shell (command ref_gtf (basename gtf))
              (open_w "cuffcmp.stderr" (open_w "cuffcmp.stdout" fs1))
        = (0, fs2) ->
        extract read_tmap (basename gtf) fs2 = Returned class_codes ->
        (created = true ->
         junk (basename gtf) = false /\ is_Some (fs2 !! basename gtf)) ->
        (_get_cuffcompare_class_codes shell read_tmap ref_gtf gtf w).2
        = Returned class_codes).
Proof.
  split; [|split].
  - intros w' class_codes. unfold _get_cuffcompare_class_codes.
    destruct (link_query gtf (files w)) as [fs1 [created|e]] eqn:Hlink;
      [|intros [=]].
    unfold run_cuffcompare. cbn [files calls with_files].
    destruct (shell _ _) as [status fs2].
    destruct (Z.eqb status 0); [|intros [=]].
    cbn [files]. destruct (extract read_tmap (basename gtf) fs2)
      as [cc|e]; [|intros [=]].
    destruct created.
    + unfold os_remove.
      destruct (remove_each (glob_cuffcmp fs2) fs2 !! basename gtf) eqn:Hl;
        [|intros [=]].
      intros [= <- <-]. cbn [files with_files]. split.
      * intros name Hj. destruct (decide (basename gtf = name)) as [->|Hne].
        -- apply lookup_delete_eq.
        -- rewrite lookup_delete_ne by exact Hne.
           rewrite remove_junk_lookup, Hj. reflexivity.
      * intros _. apply lookup_delete_eq.
    + intros [= <- <-]. cbn [files with_files snd]. split.
      * intros name Hj. rewrite remove_junk_lookup, Hj. reflexivity.
      * intros [=].
  - intros fs1 created status fs2 Hlink Hshell Hstatus.
    unfold _get_cuffcompare_class_codes. rewrite Hlink.
    unfold run_cuffcompare. cbn [files calls with_files]. rewrite Hshell.
    destruct (Z.eqb_spec status 0); [contradiction|]. split; reflexivity.
  - intros fs1 created fs2 class_codes Hlink Hshell Hextract Hkept.
    unfold _get_cuffcompare_class_codes. rewrite Hlink.
    unfold run_cuffcompare. cbn [files calls with_files]. rewrite Hshell.
    cbn [Z.eqb files]. rewrite Hextract.
    destruct created; [|reflexivity].
    destruct (Hkept eq_refl) as [Hj [n Hn]].
    unfold os_remove. rewrite remove_junk_lookup, Hj, Hn. reflexivity.
Qed.

Lemma adapter_cleanup_on_return_witness :
  (_get_cuffcompare_class_codes AdapterSamples.working_shell
     AdapterSamples.read_tmap "ref.gtf" "/data/s1.gtf"
     AdapterSamples.elsewhere).2
  = Returned {["CUFF.1.1" := Samples.cmp_u]}
  /\ files (_get_cuffcompare_class_codes AdapterSamples.working_shell
              AdapterSamples.read_tmap "ref.gtf" "/data/s1.gtf"
              AdapterSamples.elsewhere).1 !! "s1.gtf" = None.
Proof.
  assert (E2 : (_get_cuffcompare_class_codes AdapterSamples.working_shell
                  AdapterSamples.read_tmap "ref.gtf" "/data/s1.gtf"
                  AdapterSamples.elsewhere).2
               = Returned {["CUFF.1.1" := Samples.cmp_u]})
    by reflexivity.
  split; [exact E2|].
  destruct (adapter_cleanup_on_return AdapterSamples.working_shell
              AdapterSamples.read_tmap "ref.gtf" "/data/s1.gtf"
              AdapterSamples.elsewhere) as [H _].
  refine (proj2 (H _ _ _) _).
  - rewrite <- E2. apply surjective_pairing.
  - reflexivity.
Defined.

(** C4, as stated, fails: with a comparator that exits with status 1
    the link the adapter made and the two log files stay behind. *)
Lemma adapter_leaves_link_on_failure :
  ~ cleans_up_always AdapterSamples.failing_shell AdapterSamples.read_tmap
      "ref.gtf" "/data/s1.gtf" AdapterSamples.elsewhere.
Proof.
  unfold cleans_up_always. intros [H _].
  assert (Hl : (link_query "/data/s1.gtf" (files AdapterSamples.elsewhere)).2
               = Returned true) by reflexivity.
  specialize (H Hl). discriminate H.
Qed.


Lemma adapter_calls shell read_tmap ref_gtf gtf w fs1 created :
  link_query gtf (files w) = (fs1, Returned created) ->
  calls (_get_cuffcompare_class_codes shell read_tmap ref_gtf gtf w).1
  = (calls w ++ [(command ref_gtf (basename gtf),
                  open_w "cuffcmp.stderr" (open_w "cuffcmp.stdout" fs1))])%list.
Proof.
  intros Hlink. unfold _get_cuffcompare_class_codes. rewrite Hlink.
  unfold run_cuffcompare. cbn [files calls with_files].
  destruct (shell _ _) as [status fs2].
  destruct (Z.eqb status 0); [|reflexivity].
  cbn [files]. destruct (extract read_tmap (basename gtf) fs2);
    [|reflexivity].
  destruct created; [|reflexivity].
  destruct (os_remove _ _); reflexivity.
Qed.

(** C10: when the base name of the query path exists in the working
    directory, no link is made and the comparator is run on that
    name, whose entry is the one that was there; for the sample the
    file so compared is not the file the query path names. *)
Theorem adapter_compares_local_file :
  (forall (shell : string -> gmap string node -> Z * gmap string node)
          (read_tmap : string -> outcome (gmap string Novelty.cmp))
          (ref_gtf gtf : string) (w : world),
     os_path_exists (files w) (basename gtf) = true ->
     link_query gtf (files w) = (files w, Returned false)
     /\ calls (_get_cuffcompare_class_codes shell read_tmap ref_gtf gtf w).1
        = (calls w
           ++ [(command ref_gtf (basename gtf),
                open_w "cuffcmp.stderr"
                  (open_w "cuffcmp.stdout" (files w)))])%list
     /\ (junk (basename gtf) = false ->
         open_w "cuffcmp.stderr" (open_w "cuffcmp.stdout" (files w))
           !! basename gtf
         = files w !! basename gtf))
  /\ (exists fs,
        calls (_get_cuffcompare_class_codes AdapterSamples.working_shell
                 AdapterSamples.read_tmap "ref.gtf" "/data/s1.gtf"
                 AdapterSamples.shadowed).1
        = [("cuffcompare -r ref.gtf s1.gtf", fs)]
        /\ resolve max_links fs "s1.gtf" = Some "stale"
        /\ resolve max_links fs "/data/s1.gtf" = Some "query").
Proof.
  split.
  - intros shell read_tmap ref_gtf gtf w Hex.
    pose proof (link_query_existing gtf (files w) Hex) as Hlink.
    split; [exact Hlink|]. split.
    + apply (adapter_calls _ _ _ _ _ _ false), Hlink.
    + intros Hj. unfold open_w.
      rewrite !lookup_insert_ne; [reflexivity| |]; intros E;
        rewrite <- E in Hj; discriminate Hj.
  - exists (open_w "cuffcmp.stderr"
              (open_w "cuffcmp.stdout" (files AdapterSamples.shadowed))).
    split; [|split].
    + rewrite (adapter_calls _ _ _ _ _ (files AdapterSamples.shadowed) false).
      * reflexivity.
      * reflexivity.
    + reflexivity.
    + reflexivity.
Qed.

Lemma adapter_compares_local_file_witness :
  link_query "/data/s1.gtf" (files AdapterSamples.shadowed)
  = (files AdapterSamples.shadowed, Returned false).
Proof.
  apply (proj1 adapter_compares_local_file AdapterSamples.working_shell
           AdapterSamples.read_tmap "ref.gtf" "/data/s1.gtf"
           AdapterSamples.shadowed).
  reflexivity.
Defined.

End AdapterFacts.


Module OrderFacts.
Import Order.

Lemma cmp_refl {A} (cmp : A -> A -> comparison) :
  preorder_cmp cmp -> forall a, cmp a a = Eq.
Proof.
  intros H a. pose proof (cmp_opp cmp H a a) as E.
  destruct (cmp a a); cbn in E; congruence.
Qed.

Lemma cmp_eq_r {A} (cmp : A -> A -> comparison) :
  preorder_cmp cmp -> forall a b c, cmp b c = Eq -> cmp a b = cmp a c.
Proof.
  intros H a b c E.
  rewrite (cmp_opp cmp H b a), (cmp_opp cmp H c a).
  f_equal. apply (cmp_eq_l cmp H). exact E.
Qed.

Lemma Z_compare_ok : preorder_cmp Z.compare.
Proof.
  split.
  - intros a b. apply Z.compare_antisym.
  - intros a b c E. apply Z.compare_eq in E. subst. reflexivity.
  - intros a b c. rewrite !Z.compare_lt_iff. lia.
Qed.

Lemma ascii_compare_lt_trans a b c :
  Ascii.compare a b = Lt -> Ascii.compare b c = Lt -> Ascii.compare a c = Lt.
Proof.
  unfold Ascii.compare. rewrite !N.compare_lt_iff. lia.
Qed.

Lemma string_compare_lt_trans a b c :
  String.compare a b = Lt -> String.compare b c = Lt -> String.compare a c = Lt.
Proof.
  revert b c. induction a as [|x a IH]; intros [|y b] [|z c]; cbn;
    try congruence.
  destruct (Ascii.compare x y) eqn:Exy; try discriminate;
    destruct (Ascii.compare y z) eqn:Eyz; try discriminate.
  - apply Ascii.compare_eq_iff in Exy, Eyz. subst.
    assert (Ascii.compare z z = Eq) as ->
      by (unfold Ascii.compare; apply N.compare_refl).
    apply IH.
  - apply Ascii.compare_eq_iff in Exy. subst. rewrite Eyz. reflexivity.
  - apply Ascii.compare_eq_iff in Eyz. subst. rewrite Exy. reflexivity.
  - rewrite (ascii_compare_lt_trans _ _ _ Exy Eyz). reflexivity.
Qed.

Lemma string_compare_ok : preorder_cmp String.compare.
Proof.
  split.
  - intros a b. apply String.compare_antisym.
  - intros a b c E. apply String.compare_eq_iff in E. subst. reflexivity.
  - apply string_compare_lt_trans.
Qed.

Lemma opt_compare_ok {A} (cmp : A -> A -> comparison) :
  preorder_cmp cmp -> preorder_cmp (opt_compare cmp).
Proof.
  intros H. split.
  - intros [a|] [b|]; cbn; try reflexivity. apply (cmp_opp cmp H).
  - intros [a|] [b|] [c|]; cbn; try congruence. apply (cmp_eq_l cmp H).
  - intros [a|] [b|] [c|]; cbn; try congruence. apply (cmp_lt_trans cmp H).
Qed.

Lemma on_ok {A B} (f : B -> A) (cmp : A -> A -> comparison) :
  preorder_cmp cmp -> preorder_cmp (fun x y => cmp (f x) (f y)).
Proof.
  intros H. split.
  - intros a b. apply (cmp_opp cmp H).
  - intros a b c. apply (cmp_eq_l cmp H).
  - intros a b c. apply (cmp_lt_trans cmp H).
Qed.

Lemma lex_ok {A} (c1 c2 : A -> A -> comparison) :
  preorder_cmp c1 -> preorder_cmp c2 ->
  preorder_cmp (fun x y => lex (c1 x y) (c2 x y)).
Proof.
  intros H1 H2. split.
  - intros a b. rewrite (cmp_opp c1 H1 a b), (cmp_opp c2 H2 a b).
    destruct (c1 a b); reflexivity.
  - intros a b c. unfold lex.
    destruct (c1 a b) eqn:E1; try discriminate. intros E2.
    rewrite (cmp_eq_l c1 H1 _ _ c E1), (cmp_eq_l c2 H2 _ _ c E2).
    reflexivity.
  - intros a b c. unfold lex.
    destruct (c1 a b) eqn:E1; try discriminate;
      destruct (c1 b c) eqn:E2; try discriminate; intros E3 E4.
    + rewrite (cmp_eq_l c1 H1 _ _ c E1), E2.
      apply (cmp_lt_trans c2 H2 _ _ _ E3 E4).
    + rewrite (cmp_eq_l c1 H1 _ _ c E1), E2. reflexivity.
    + rewrite <- (cmp_eq_r c1 H1 a _ _ E2), E1. reflexivity.
    + rewrite (cmp_lt_trans c1 H1 _ _ _ E1 E2). reflexivity.
Qed.

Section LebOf.
Context {A : Type} (cmp : A -> A -> comparison) (Hcmp : preorder_cmp cmp).

Lemma leb_of_total a b : leb_of cmp a b = true \/ leb_of cmp b a = true.
Proof.
  unfold leb_of. rewrite (cmp_opp cmp Hcmp a b).
  destruct (cmp a b); cbn; auto.
Qed.

Lemma leb_of_trans a b c :
  leb_of cmp a b = true -> leb_of cmp b c = true -> leb_of cmp a c = true.
Proof.
  unfold leb_of.
  destruct (cmp a b) eqn:E1; try discriminate;
    destruct (cmp b c) eqn:E2; try discriminate; intros _ _.
  - rewrite (cmp_eq_l cmp Hcmp _ _ c E1), E2. reflexivity.
  - rewrite (cmp_eq_l cmp Hcmp _ _ c E1), E2. reflexivity.
  - rewrite <- (cmp_eq_r cmp Hcmp a _ _ E2), E1. reflexivity.
  - rewrite (cmp_lt_trans cmp Hcmp _ _ _ E1 E2). reflexivity.
Qed.

Lemma leb_of_antisym a b :
  leb_of cmp a b = true -> leb_of cmp b a = true -> cmp a b = Eq.
Proof.
  unfold leb_of. rewrite (cmp_opp cmp Hcmp a b).
  destruct (cmp a b); cbn; congruence.
Qed.

End LebOf.

Section SortFacts.
Context {A : Type} (leb : A -> A -> bool).
Hypothesis leb_total : forall a b, leb a b = true \/ leb b a = true.
Hypothesis leb_trans :
  forall a b c, leb a b = true -> leb b c = true -> leb a c = true.

Lemma insert_perm a l : Permutation (insert leb a l) (a :: l).
Proof.
  induction l as [|b l IH]; cbn; [reflexivity|].
  destruct (leb a b); [reflexivity|].
  rewrite IH. apply perm_swap.
Qed.

Lemma sort_perm l : Permutation (sort leb l) l.
Proof.
  induction l as [|a l IH]; cbn; [reflexivity|].
  rewrite insert_perm. constructor. exact IH.
Qed.

Lemma insert_sorted a l :
  StronglySorted (fun x y => leb x y = true) l ->
  StronglySorted (fun x y => leb x y = true) (insert leb a l).
Proof.
  induction 1 as [|b l Hl IH Hb]; cbn.
  - constructor; constructor.
  - destruct (leb a b) eqn:E.
    + constructor; [constructor; assumption|].
      constructor; [exact E|].
      rewrite List.Forall_forall in *. intros x Hx. eauto.
    + constructor; [exact IH|].
      rewrite List.Forall_forall in *. intros x Hx.
      apply (Permutation_in _ (insert_perm a l)) in Hx.
      destruct Hx as [<-|Hx]; [|auto].
      destruct (leb_total a b); congruence.
Qed.

Lemma sort_sorted l : StronglySorted (fun x y => leb x y = true) (sort leb l).
Proof.
  induction l as [|a l IH]; cbn; [constructor|].
  apply insert_sorted, IH.
Qed.

End SortFacts.


Section Contiguity.
Context {A : Type}.
Implicit Types (P Q : A -> bool) (l : list A).

Lemma drop_while_split P l :
  exists pre, l = (pre ++ drop_while P l)%list
              /\ List.Forall (fun a => P a = true) pre.
Proof.
  induction l as [|a l (pre & IH1 & IH2)]; cbn.
  - exists []. split; [reflexivity|constructor].
  - destruct (P a) eqn:E.
    + exists (a :: pre). split; [cbn; congruence|constructor; assumption].
    + exists []. split; [reflexivity|constructor].
Qed.

Lemma drop_while_head P l :
  match drop_while P l with
  | [] => True
  | a :: _ => P a = false
  end.
Proof.
  induction l as [|a l IH]; cbn; [exact I|].
  destruct (P a) eqn:E; [exact IH|exact E].
Qed.

Lemma drop_while_app P pre rest :
  List.Forall (fun a => P a = true) pre ->
  drop_while P (pre ++ rest) = drop_while P rest.
Proof.
  induction 1 as [|a pre Ha _ IH]; cbn; [reflexivity|].
  rewrite Ha. exact IH.
Qed.

Lemma Forall_negb P l :
  List.Forall (fun a => P a = false) l <->
  List.Forall (fun a => negb (P a) = true) l.
Proof.
  split; apply List.Forall_impl; intros a; destruct (P a); cbn; congruence.
Qed.

Lemma forallb_negb P l :
  forallb (fun a => negb (P a)) l = true <->
  List.Forall (fun a => P a = false) l.
Proof.
  rewrite forallb_forall, List.Forall_forall.
  split; intros H a Ha; specialize (H a Ha); destruct (P a); cbn in *;
    congruence.
Qed.

(** The two renderings of contiguity agree. *)
Lemma contiguousb_iff P l : contiguousb P l = true <-> contiguous P l.
Proof.
  unfold contiguousb, contiguous. rewrite forallb_negb. split.
  - intros Hpost.
    destruct (drop_while_split (fun a => negb (P a)) l) as (pre & E1 & Hpre).
    destruct (drop_while_split P (drop_while (fun a => negb (P a)) l))
      as (mid & E2 & Hmid).
    exists pre, mid, (drop_while P (drop_while (fun a => negb (P a)) l)).
    split; [congruence|]. split; [apply Forall_negb, Hpre|]. auto.
  - intros (pre & mid & post & -> & Hpre & Hmid & Hpost).
    rewrite drop_while_app by (apply Forall_negb, Hpre).
    destruct mid as [|m mid].
    + cbn [app].
      destruct (drop_while_split (fun a => negb (P a)) post) as (p & E & _).
      assert (H : drop_while (fun a => negb (P a)) post = []).
      { pose proof (drop_while_head (fun a => negb (P a)) post) as Hh.
        destruct (drop_while (fun a => negb (P a)) post) as [|b rest];
          [reflexivity|].
        rewrite E in Hpost. apply List.Forall_app in Hpost as [_ Hb].
        inversion Hb; subst. destruct (P b); discriminate. }
      rewrite H. constructor.
    + inversion Hmid as [|? ? Hm Hmid']; subst.
      cbn [app drop_while]. rewrite Hm. cbn [negb].
      change (m :: (mid ++ post)%list) with (((m :: mid) ++ post)%list).
      rewrite drop_while_app by exact Hmid.
      destruct (drop_while_split P post) as (p & E & _).
      rewrite E in Hpost. apply List.Forall_app in Hpost as [_ H]. exact H.
Qed.

Lemma drop_while_ext P Q l :
  (forall a, In a l -> P a = Q a) ->
  drop_while P l = drop_while Q l.
Proof.
  induction l as [|a l IH]; intros H; cbn; [reflexivity|].
  rewrite <- (H a (or_introl eq_refl)).
  destruct (P a); [|reflexivity]. apply IH. intros b Hb. apply H. right. exact Hb.
Qed.

Lemma drop_while_incl P l a : In a (drop_while P l) -> In a l.
Proof.
  destruct (drop_while_split P l) as (pre & E & _). intros H.
  rewrite E. apply in_or_app. right. exact H.
Qed.

Lemma forallb_ext_on (f g : A -> bool) l :
  (forall a, In a l -> f a = g a) -> forallb f l = forallb g l.
Proof.
  induction l as [|a l IH]; intros H; cbn; [reflexivity|].
  rewrite (H a (or_introl eq_refl)), IH; [reflexivity|].
  intros b Hb. apply H. right. exact Hb.
Qed.

Lemma contiguousb_ext P Q l :
  (forall a, In a l -> P a = Q a) ->
  contiguousb P l = contiguousb Q l.
Proof.
  intros H. unfold contiguousb.
  rewrite (drop_while_ext (fun a => negb (P a)) (fun a => negb (Q a)) l)
    by (intros a Ha; rewrite (H a Ha); reflexivity).
  rewrite (drop_while_ext P Q)
    by (intros a Ha; apply H; eapply drop_while_incl, Ha).
  apply forallb_ext_on. intros a Ha. rewrite H; [reflexivity|].
  eapply drop_while_incl, drop_while_incl, Ha.
Qed.

Lemma StronglySorted_app_inv (R : A -> A -> Prop) x y :
  StronglySorted R (x ++ y) ->
  StronglySorted R y /\ forall a b, In a x -> In b y -> R a b.
Proof.
  induction x as [|c x IH]; cbn; intros H.
  - split; [exact H|]. intros a b [].
  - inversion H as [|? ? Hs Hc]; subst.
    destruct (IH Hs) as [Hy Hxy]. split; [exact Hy|].
    intros a b [<-|Ha] Hb; [|auto].
    rewrite List.Forall_forall in Hc. apply Hc, in_or_app. right. exact Hb.
Qed.

(** In a sorted list, a set of elements that holds every element
    lying between two of its own is contiguous. *)
Lemma sorted_contiguousb (R : A -> A -> Prop) P l :
  (forall a b c,
     R a b -> R b c -> P a = true -> P c = true -> P b = true) ->
  StronglySorted R l -> contiguousb P l = true.
Proof.
  intros Hconvex Hs. unfold contiguousb. apply forallb_negb.
  destruct (drop_while_split (fun a => negb (P a)) l) as (pre & E1 & _).
  pose proof (drop_while_head (fun a => negb (P a)) l) as Hh1.
  rewrite E1 in Hs. apply StronglySorted_app_inv in Hs as [Hs _].
  destruct (drop_while (fun a => negb (P a)) l) as [|a l1]; [constructor|].
  apply negb_false_iff in Hh1.
  destruct (drop_while_split P (a :: l1)) as (mid & E2 & Hmid).
  pose proof (drop_while_head P (a :: l1)) as Hh2.
  rewrite E2 in Hs. apply StronglySorted_app_inv in Hs as [Hs2 Hcross].
  destruct (drop_while P (a :: l1)) as [|b l2]; [constructor|].
  assert (Ha : In a mid).
  { destruct mid as [|m mid]; cbn in E2.
    - injection E2 as <- _. congruence.
    - injection E2 as <- _. left. reflexivity. }
  inversion Hs2 as [|? ? _ Hb]; subst.
  constructor; [exact Hh2|].
  rewrite List.Forall_forall in *. intros c Hc.
  destruct (P c) eqn:Ec; [|reflexivity].
  rewrite <- Hh2. symmetry.
  apply (Hconvex a b c); auto. apply Hcross; [exact Ha|left; reflexivity].
Qed.

End Contiguity.

End OrderFacts.

Module CatalogFacts.
Import Catalog Order OrderFacts FrameFacts.

Lemma lex_Eq c1 c2 : lex c1 c2 = Eq <-> c1 = Eq /\ c2 = Eq.
Proof. destruct c1; cbn; split; try tauto; try discriminate; intros H; destruct H; congruence. Qed.

Lemma opt_compare_Eq {A} (cmp : A -> A -> comparison) a b :
  (forall x y, cmp x y = Eq -> x = y) ->
  opt_compare cmp a b = Eq -> a = b.
Proof.
  intros H. destruct a, b; cbn; try congruence. intros E. f_equal. auto.
Qed.

Lemma chrom_compare_ok : preorder_cmp chrom_compare.
Proof.
  split.
  - intros [x|x] [y|y]; cbn; try reflexivity.
    + apply Z.compare_antisym.
    + apply String.compare_antisym.
  - intros [x|x] [y|y] [z|z]; cbn; try congruence.
    + apply (cmp_eq_l _ Z_compare_ok).
    + apply (cmp_eq_l _ string_compare_ok).
  - intros [x|x] [y|y] [z|z]; cbn; try congruence.
    + apply (cmp_lt_trans _ Z_compare_ok).
    + apply (cmp_lt_trans _ string_compare_ok).
Qed.

Lemma chrom_compare_Eq a b : chrom_compare a b = Eq -> a = b.
Proof.
  destruct a as [x|x], b as [y|y]; cbn; try discriminate.
  - intros H. apply Z.compare_eq in H. congruence.
  - intros H. apply String.compare_eq_iff in H. congruence.
Qed.

Lemma key_compare_ok : preorder_cmp key_compare.
Proof.
  exact (lex_ok _ _
           (on_ok (fun k : key => k.1.1.1) _ chrom_compare_ok)
           (lex_ok _ _
              (on_ok (fun k : key => k.1.1.2) _ (opt_compare_ok _ Z_compare_ok))
              (lex_ok _ _
                 (on_ok (fun k : key => k.1.2) _
                    (opt_compare_ok _ string_compare_ok))
                 (on_ok (fun k : key => k.2) _
                    (opt_compare_ok _ string_compare_ok))))).
Qed.

Lemma prefix_compare_ok : preorder_cmp prefix_compare.
Proof.
  exact (lex_ok _ _
           (on_ok (fun k : key => k.1.1.1) _ chrom_compare_ok)
           (lex_ok _ _
              (on_ok (fun k : key => k.1.1.2) _ (opt_compare_ok _ Z_compare_ok))
              (on_ok (fun k : key => k.1.2) _
                 (opt_compare_ok _ string_compare_ok)))).
Qed.

Lemma key_compare_prefix a b :
  key_compare a b
  = lex (prefix_compare a b) (opt_compare String.compare a.2 b.2).
Proof.
  unfold key_compare, prefix_compare.
  destruct (chrom_compare _ _); cbn; [|reflexivity..].
  destruct (opt_compare Z.compare _ _); reflexivity.
Qed.

Lemma prefix_compare_Eq a b :
  prefix_compare a b = Eq <-> a.1 = b.1.
Proof.
  unfold prefix_compare. rewrite !lex_Eq. split.
  - intros (H1 & H2 & H3).
    apply chrom_compare_Eq in H1.
    apply opt_compare_Eq in H2; [|apply Z.compare_eq].
    apply opt_compare_Eq in H3; [|intros x y; apply String.compare_eq_iff].
    destruct a as [[[a1 a2] a3] a4], b as [[[b1 b2] b3] b4]. cbn in *.
    congruence.
  - intros E. rewrite E.
    rewrite (cmp_refl _ chrom_compare_ok),
      (cmp_refl _ (opt_compare_ok _ Z_compare_ok)),
      (cmp_refl _ (opt_compare_ok _ string_compare_ok)). auto.
Qed.

Lemma row_leb_total a b : row_leb a b = true \/ row_leb b a = true.
Proof. apply (leb_of_total key_compare key_compare_ok). Qed.

Lemma row_leb_trans a b c :
  row_leb a b = true -> row_leb b c = true -> row_leb a c = true.
Proof. apply (leb_of_trans key_compare key_compare_ok). Qed.

Lemma row_leb_prefix a b :
  row_leb a b = true -> leb_of prefix_compare (key_of a) (key_of b) = true.
Proof.
  unfold row_leb, leb_of. rewrite key_compare_prefix.
  destruct (prefix_compare _ _); cbn; congruence.
Qed.

(** Between two rows with the same chromosome, start position and
    gene there are, in key order, only rows with these three. *)
Lemma same_prefix_convex a b c :
  row_leb a b = true -> row_leb b c = true ->
  (key_of a).1 = (key_of c).1 -> (key_of b).1 = (key_of a).1.
Proof.
  intros Hab%row_leb_prefix Hbc%row_leb_prefix Hac.
  apply prefix_compare_Eq in Hac.
  symmetry. apply prefix_compare_Eq.
  apply (leb_of_antisym prefix_compare prefix_compare_ok); [exact Hab|].
  unfold leb_of in *.
  rewrite (cmp_eq_r _ prefix_compare_ok (key_of b) (key_of a) (key_of c) Hac).
  exact Hbc.
Qed.

Lemma of_gene_at_iff c sp g r :
  of_gene_at c sp g r = true <-> (key_of r).1 = (c, sp, Some g).
Proof.
  unfold of_gene_at, of_gene_on, of_gene, key_of. cbn.
  rewrite !andb_true_iff, !bool_decide_eq_true, CellFacts.eq_lit_true.
  split; [intros [[-> ->] ->]; reflexivity|intros [= -> -> ->]; auto].
Qed.

Lemma of_gene_at_convex c sp g a b c' :
  row_leb a b = true -> row_leb b c' = true ->
  of_gene_at c sp g a = true -> of_gene_at c sp g c' = true ->
  of_gene_at c sp g b = true.
Proof.
  rewrite !of_gene_at_iff. intros Hab Hbc Ha Hc.
  rewrite (same_prefix_convex a b c' Hab Hbc); congruence.
Qed.


Lemma foldl_min_spec vs v :
  (foldl Z.min v vs = v \/ In (foldl Z.min v vs) vs)
  /\ foldl Z.min v vs <= v
  /\ forall x, In x vs -> foldl Z.min v vs <= x.
Proof.
  revert v. induction vs as [|w vs IH]; intros v; cbn.
  - repeat split; [auto|lia|intros x []].
  - destruct (IH (Z.min v w)) as (H1 & H2 & H3). repeat split.
    + destruct H1 as [H1|H1]; [|auto].
      rewrite H1. destruct (Z.min_spec v w) as [[_ ->]|[_ ->]]; auto.
    + lia.
    + intros x [<-|Hx]; [lia|auto].
Qed.

(** [Frame.min] of a group is one of its values and a lower bound of all. *)
Lemma min_spec vs m :
  Frame.min vs = Some m -> In m vs /\ forall x, In x vs -> m <= x.
Proof.
  destruct vs as [|v vs]; cbn; [discriminate|]. intros [= <-].
  destruct (foldl_min_spec vs v) as (H1 & H2 & H3). split.
  - destruct H1 as [->|H1]; auto.
  - intros x [<-|Hx]; auto.
Qed.

Lemma merged_start_lookup df r :
  merged_start (start_pos_table df) r
  = match gene_id r with
    | Some g => Frame.min (starts_of g df)
    | None => None
    end.
Proof.
  unfold merged_start, start_pos_table, starts_of.
  destruct (gene_id r) as [g|]; [|reflexivity].
  rewrite lookup_fmap, groupby_lookup, group_of_map.
  destruct (map _ _); reflexivity.
Qed.

Lemma starts_of_In g df m :
  In m (starts_of g df) <->
  exists r0, In r0 df /\ gene_id r0 = Some g /\ c3 (line r0) = m.
Proof.
  unfold starts_of. rewrite in_map_iff. split.
  - intros (r0 & <- & [Hin Hg%bool_decide_eq_true]%filter_In). eauto.
  - intros (r0 & Hin & Hg & <-). exists r0. split; [reflexivity|].
    apply filter_In. split; [exact Hin|]. apply bool_decide_eq_true, Hg.
Qed.

(** The merge finds a value for a row exactly when the row has a
    [gene_id]: the least start coordinate of the rows of that gene. *)
Lemma merged_start_of_gene df r g :
  In r df -> gene_id r = Some g ->
  exists m, merged_start (start_pos_table df) r = Some m
    /\ In m (starts_of g df)
    /\ forall x, In x (starts_of g df) -> m <= x.
Proof.
  intros Hr Hg. rewrite merged_start_lookup, Hg.
  destruct (Frame.min (starts_of g df)) as [m|] eqn:Em.
  - exists m. split; [reflexivity|]. apply min_spec, Em.
  - assert (Hin : In (c3 (line r)) (starts_of g df))
      by (apply starts_of_In; eauto).
    destruct (starts_of g df); [destruct Hin|discriminate Em].
Qed.

Lemma merged_start_missing df r :
  In r df ->
  is_missing (merged_start (start_pos_table df) r) = is_missing (gene_id r).
Proof.
  intros Hr. destruct (gene_id r) as [g|] eqn:Hg.
  - destruct (merged_start_of_gene df r g Hr Hg) as (m & -> & _).
    reflexivity.
  - rewrite merged_start_lookup, Hg. reflexivity.
Qed.

Lemma existsb_ext_on {A} (f g : A -> bool) l :
  (forall a, In a l -> f a = g a) -> existsb f l = existsb g l.
Proof.
  induction l as [|a l IH]; intros H; cbn; [reflexivity|].
  rewrite (H a (or_introl eq_refl)), IH; [reflexivity|].
  intros b Hb. apply H. right. exact Hb.
Qed.

Lemma upcast_flag df :
  existsb (fun r => is_missing (merged_start (start_pos_table df) r)) df
  = existsb (fun r => is_missing (gene_id r)) df.
Proof. apply existsb_ext_on. intros r Hr. apply merged_start_missing, Hr. Qed.

Lemma merge_start_pos_In df r :
  In r (merge_start_pos df) <->
  exists r0, In r0 df
    /\ r = set_start_pos r0
             (stored df <$> merged_start (start_pos_table df) r0).
Proof.
  unfold merge_start_pos, stored. rewrite upcast_flag, in_map_iff.
  destruct (existsb _ df).
  - split; intros (r0 & H1 & H2); exists r0; split; auto.
  - split.
    + intros (r0 & <- & Hin). exists r0. split; [exact Hin|].
      destruct (merged_start _ r0); reflexivity.
    + intros (r0 & Hin & ->). exists r0. split; [|exact Hin].
      destruct (merged_start _ r0); reflexivity.
Qed.

Lemma float64_of_int_small m :
  Z.abs m < 9007199254740992 -> float64_of_int m = m.
Proof.
  intros H. unfold float64_of_int.
  destruct (Z.ltb_spec (Z.abs m) 9007199254740992); [reflexivity|lia].
Qed.

Lemma existsb_missing_iff (rows : list row) :
  existsb (fun r => is_missing (gene_id r)) rows = true
  <-> Exists (fun r => gene_id r = None) rows.
Proof.
  rewrite existsb_exists, List.Exists_exists.
  split; intros (r & Hr & H); exists r; (split; [exact Hr|]);
    destruct (gene_id r); cbn in *; congruence.
Qed.

(** What lines 274-276 make of a table. *)
Lemma sorted_table_facts (df : list row) :
  sorted_by_key (sort row_leb (merge_start_pos df))
  /\ Permutation (sort row_leb (merge_start_pos df)) (merge_start_pos df)
  /\ (forall r g,
        In r (sort row_leb (merge_start_pos df)) ->
        gene_id r = Some g ->
        exists m,
          (exists r', In r' (sort row_leb (merge_start_pos df))
                      /\ gene_id r' = Some g /\ c3 (line r') = m)
          /\ (forall r', In r' (sort row_leb (merge_start_pos df)) ->
                         gene_id r' = Some g -> m <= c3 (line r'))
          /\ (Forall (fun r' => gene_id r' <> None)
                (sort row_leb (merge_start_pos df)) ->
              start_pos r = Some m)
          /\ (Exists (fun r' => gene_id r' = None)
                (sort row_leb (merge_start_pos df)) ->
              start_pos r = Some (float64_of_int m))
          /\ (Z.abs m < 9007199254740992 -> start_pos r = Some m))
  /\ (forall c g,
        contiguous (of_gene_on c g) (sort row_leb (merge_start_pos df)))
  /\ (forall c g,
        (forall r, In r (sort row_leb (merge_start_pos df)) ->
                   gene_id r = Some g -> c0 (line r) = c) ->
        contiguous (of_gene g) (sort row_leb (merge_start_pos df))).
Proof.
  set (rows := sort row_leb (merge_start_pos df)).
  assert (Hsorted : sorted_by_key rows)
    by (apply sort_sorted; [exact row_leb_total|exact row_leb_trans]).
  assert (Hperm : Permutation rows (merge_start_pos df)) by apply sort_perm.
  assert (Hin : forall r, In r rows <->
            exists r0, In r0 df
              /\ r = set_start_pos r0
                       (stored df <$> merged_start (start_pos_table df) r0)).
  { intros r. rewrite <- merge_start_pos_In.
    split; apply Permutation_in; [exact Hperm|symmetry; exact Hperm]. }
  assert (Hflag : existsb (fun r => is_missing (gene_id r)) df = true
                  <-> Exists (fun r => gene_id r = None) rows).
  { rewrite existsb_missing_iff, !List.Exists_exists. split.
    - intros (r0 & Hr0 & Hg).
      exists (set_start_pos r0
                (stored df <$> merged_start (start_pos_table df) r0)).
      split; [|exact Hg].
      apply Hin. exists r0. split; [exact Hr0|reflexivity].
    - intros (r & Hr & Hg). apply Hin in Hr as (r0 & Hr0 & ->).
      exists r0. split; [exact Hr0|exact Hg]. }
  assert (Hsp : forall r g, In r rows -> gene_id r = Some g ->
            exists m, start_pos r = Some (stored df m)
              /\ In m (starts_of g df)
              /\ (forall x, In x (starts_of g df) -> m <= x)).
  { intros r g Hr Hg. apply Hin in Hr as (r0 & Hr0 & ->). cbn in Hg |- *.
    destruct (merged_start_of_gene df r0 g Hr0 Hg) as (m & -> & Hm & Hle).
    exists m. split; [reflexivity|]. split; assumption. }
  assert (Hmin : forall g m m',
            In m (starts_of g df) ->
            (forall x, In x (starts_of g df) -> m <= x) ->
            In m' (starts_of g df) ->
            (forall x, In x (starts_of g df) -> m' <= x) -> m = m').
  { intros g m m' H1 H2 H3 H4. specialize (H2 m' H3). specialize (H4 m H1).
    lia. }
  assert (Hon : forall c g, contiguous (of_gene_on c g) rows).
  { intros c g.
    destruct (Frame.min (starts_of g df)) as [m|] eqn:Em.
    - apply contiguousb_iff.
      rewrite <- (contiguousb_ext (of_gene_at c (Some (stored df m)) g)).
      + apply (sorted_contiguousb (fun a b => row_leb a b = true)).
        * intros a b c'. apply of_gene_at_convex.
        * exact Hsorted.
      + intros r Hr. unfold of_gene_at.
        destruct (of_gene_on c g r) eqn:E; [|reflexivity]. cbn.
        apply bool_decide_eq_true.
        unfold of_gene_on, of_gene in E.
        apply andb_true_iff in E as [_ E]. apply CellFacts.eq_lit_true in E.
        destruct (Hsp r g Hr E) as (m' & -> & Hm' & Hle').
        destruct (min_spec _ _ Em) as [Hm Hle].
        rewrite (Hmin g m m' Hm Hle Hm' Hle'). reflexivity.
    - apply contiguousb_iff.
      rewrite <- (contiguousb_ext (fun _ => false)).
      + unfold contiguousb.
        generalize rows. intros l. induction l as [|a l IH]; [reflexivity|].
        exact IH.
      + intros r Hr. symmetry. unfold of_gene_on, of_gene.
        destruct (Cell.eq_lit (gene_id r) g) eqn:E; [|apply andb_false_r].
        apply CellFacts.eq_lit_true in E.
        destruct (Hsp r g Hr E) as (m' & _ & Hm' & _).
        destruct (starts_of g df); [destruct Hm'|discriminate Em]. }
  split; [exact Hsorted|]. split; [exact Hperm|].
  split; [|split; [exact Hon|]].
  - intros r g Hr Hg. destruct (Hsp r g Hr Hg) as (m & Hs & Hm & Hle).
    exists m. split; [|split; [|split; [|split]]].
    + apply starts_of_In in Hm as (r0 & Hr0 & Hg0 & Hc0).
      exists (set_start_pos r0
                (stored df <$> merged_start (start_pos_table df) r0)).
      split; [|split; [exact Hg0|exact Hc0]].
      apply Hin. exists r0. split; [exact Hr0|reflexivity].
    + intros r' Hr' Hg'. destruct (Hsp r' g Hr' Hg') as (m' & _ & Hm' & Hle').
      rewrite (Hmin g m m' Hm Hle Hm' Hle').
      apply Hin in Hr' as (r0 & Hr0 & ->). cbn in Hg' |- *.
      apply Hle', starts_of_In. eauto.
    + intros Hall. rewrite Hs. unfold stored.
      destruct (existsb _ df) eqn:Ef; [|reflexivity].
      pose proof (proj1 Hflag eq_refl) as Hex.
      apply List.Exists_exists in Hex as (r' & Hr' & Hg').
      rewrite List.Forall_forall in Hall. destruct (Hall r' Hr' Hg').
    + intros Hex. rewrite Hs. unfold stored.
      apply Hflag in Hex. rewrite Hex. reflexivity.
    + intros Hsmall. rewrite Hs. unfold stored.
      destruct (existsb _ df); [|reflexivity].
      rewrite float64_of_int_small by exact Hsmall. reflexivity.
  - intros c g Hone. apply contiguousb_iff.
    rewrite (contiguousb_ext (of_gene g) (of_gene_on c g)).
    + apply contiguousb_iff, Hon.
    + intros r Hr. unfold of_gene_on.
      destruct (of_gene g r) eqn:E; [|symmetry; apply andb_false_r].
      apply CellFacts.eq_lit_true in E.
      rewrite (bool_decide_eq_true_2 _ (Hone r Hr E)). reflexivity.
Qed.

Lemma Returned_inj {A} (a b : A) : Returned a = Returned b -> a = b.
Proof. congruence. Qed.

Lemma catalog_rows_returns lnc_gtf novel_gtf annots :
  lnc_gtf <> [] -> novel_gtf <> [] ->
  catalog_rows lnc_gtf novel_gtf annots
  = Returned (sort row_leb
                (merge_start_pos (population lnc_gtf novel_gtf annots))).
Proof.
  intros Hl Hn. unfold catalog_rows, read_table.
  destruct lnc_gtf; [congruence|]. destruct novel_gtf; [congruence|].
  reflexivity.
Qed.




(** The chromosomes [10] and [2], read as numbers, are written in the
    order 2, 10; read as text, in the order 10, 2. *)
Example chromosome_order :
  chrom_compare (ChrInt 2) (ChrInt 10) = Lt
  /\ chrom_compare (ChrStr "10") (ChrStr "2") = Lt
  /\ chrom_compare (ChrInt 10) (ChrStr "2") = Lt.
Proof. repeat split. Qed.


Lemma gene_name_to_gene_id_lookup known n :
  map_cell (gene_name_to_gene_id known) (Some n) = first_gene_id known n.
Proof.
  unfold map_cell, gene_name_to_gene_id, first_gene_id.
  rewrite lookup_fmap, groupby_lookup, group_of_map.
  destruct (map _ _); reflexivity.
Qed.

Lemma classified_one label annots t :
  t ∈ classified [label] annots <->
  exists a, annots !! t = Some a /\ Classifier.classification a = label.
Proof.
  unfold classified. rewrite elem_of_dom. unfold is_Some.
  split.
  - intros [a [Ha Hc]%map_lookup_filter_Some]. exists a. split; [exact Ha|].
    cbn in Hc. rewrite orb_false_r in Hc. apply String.eqb_eq, Hc.
  - intros (a & Ha & Hc). exists a. apply map_lookup_filter_Some.
    split; [exact Ha|]. cbn. rewrite orb_false_r. apply String.eqb_eq, Hc.
Qed.

Lemma select_In index table r :
  In r (select index table) <->
  In r table /\ exists t, transcript_id r = Some t /\ t ∈ index.
Proof.
  unfold select. rewrite filter_In. split.
  - intros [Hin H]. split; [exact Hin|].
    destruct (transcript_id r) as [t|]; [|discriminate].
    exists t. split; [reflexivity|]. exact (bool_decide_eq_true_1 _ H).
  - intros [Hin (t & -> & Ht)]. split; [exact Hin|].
    exact (bool_decide_eq_true_2 _ Ht).
Qed.


Lemma first_gene_id_cons l lnc_gtf n :
  first_gene_id (known_trans_gtf (l :: lnc_gtf)) n
  = if String.eqb (c2 l) "exon"
       && bool_decide (Text.attr_value "gene_name" (c8 l) = Some n)
    then match Text.attr_value "gene_id" (c8 l) with
         | Some g => Some g
         | None => first_gene_id (known_trans_gtf lnc_gtf) n
         end
    else first_gene_id (known_trans_gtf lnc_gtf) n.
Proof.
  unfold first_gene_id, known_trans_gtf. cbn [List.filter].
  destruct (String.eqb (c2 l) "exon"); [|reflexivity].
  cbn [map List.filter gene_name andb].
  destruct (decide (Text.attr_value "gene_name" (c8 l) = Some n)) as [Hn|Hn].
  - rewrite !bool_decide_eq_true_2 by exact Hn.
    cbn [map gene_id Frame.first].
    destruct (Text.attr_value "gene_id" (c8 l)); reflexivity.
  - rewrite !bool_decide_eq_false_2 by exact Hn. reflexivity.
Qed.

Lemma named_dec n l :
  String.eqb (c2 l) "exon"
  && bool_decide (Text.attr_value "gene_name" (c8 l) = Some n) = true
  <-> named n l.
Proof.
  unfold named.
  rewrite andb_true_iff, String.eqb_eq, bool_decide_eq_true. reflexivity.
Qed.

(** Line 247 takes, for a name, the [gene_id] of the first exon line
    of the known annotation that carries the name and a [gene_id]. *)
Lemma first_gene_id_is_first lnc_gtf n :
  first_gene_id_of lnc_gtf (Some n)
    (first_gene_id (known_trans_gtf lnc_gtf) n).
Proof.
  induction lnc_gtf as [|l lnc_gtf IH].
  - cbn. intros l [].
  - rewrite first_gene_id_cons.
    destruct (String.eqb (c2 l) "exon"
              && bool_decide (Text.attr_value "gene_name" (c8 l) = Some n))
      eqn:Hnamed.
    + apply named_dec in Hnamed.
      destruct (Text.attr_value "gene_id" (c8 l)) as [g|] eqn:Hg.
      * cbn. exists [], l, lnc_gtf. repeat split; try assumption;
          try apply Hnamed. intros l' [].
      * destruct (first_gene_id (known_trans_gtf lnc_gtf) n) as [g|]; cbn in *.
        -- destruct IH as (pre & k & post & -> & Hk & Hkg & Hpre).
           exists (l :: pre), k, post. repeat split; try assumption;
             try apply Hk.
           intros l' [<-|Hl'] Hn'; [exact Hg|auto].
        -- intros l' [<-|Hl'] Hn'; [exact Hg|auto].
    + assert (Hn : ~ named n l)
        by (rewrite <- named_dec, Hnamed; discriminate).
      destruct (first_gene_id (known_trans_gtf lnc_gtf) n) as [g|]; cbn in *.
      * destruct IH as (pre & k & post & -> & Hk & Hkg & Hpre).
        exists (l :: pre), k, post. repeat split; try assumption;
          try apply Hk.
        intros l' [<-|Hl'] Hn'; [contradiction|auto].
      * intros l' [<-|Hl'] Hn'; [contradiction|auto].
Qed.

Lemma first_gene_id_of_cell lnc_gtf name :
  first_gene_id_of lnc_gtf name
    (map_cell (gene_name_to_gene_id (known_trans_gtf lnc_gtf)) name).
Proof.
  destruct name as [n|]; [|exact I].
  rewrite gene_name_to_gene_id_lookup. apply first_gene_id_is_first.
Qed.

Lemma first_gene_id_of_unnamed lnc_gtf n g :
  (forall k, In k lnc_gtf -> ~ named n k) ->
  first_gene_id_of lnc_gtf (Some n) g -> g = None.
Proof.
  intros Hno H. destruct g as [g|]; [|reflexivity]. cbn in H.
  destruct H as (pre & l & post & -> & Hl & _).
  destruct (Hno l); [|exact Hl]. apply in_or_app. right. left. reflexivity.
Qed.

Lemma population_rendered lnc_gtf novel_gtf annots r :
  In r (population lnc_gtf novel_gtf annots) ->
  In (line r, attributes r)
     (map (fun r => (line r, attributes r))
        (sort row_leb
           (merge_start_pos (population lnc_gtf novel_gtf annots)))).
Proof.
  intros Hr. apply in_map_iff.
  exists (set_start_pos r
            (stored (population lnc_gtf novel_gtf annots)
               <$> merged_start
                     (start_pos_table (population lnc_gtf novel_gtf annots))
                     r)).
  split; [reflexivity|].
  apply (Permutation_in _ (Permutation_sym (sort_perm row_leb _))).
  apply merge_start_pos_In. eauto.
Qed.

Lemma fold_returns lnc_gtf novel_gtf annots :
  lnc_gtf <> [] -> novel_gtf <> [] ->
  fold_novel_lncs_into_input_gtfs lnc_gtf novel_gtf annots
  = Returned (map (fun r => (line r, attributes r))
                (sort row_leb
                   (merge_start_pos
                      (population lnc_gtf novel_gtf annots)))).
Proof.
  intros Hl Hn. unfold fold_novel_lncs_into_input_gtfs.
  rewrite catalog_rows_returns by assumption. reflexivity.
Qed.

Lemma novel_isoform_gtf_In lnc_gtf novel_gtf annots r :
  In r (novel_isoform_gtf (known_trans_gtf lnc_gtf)
          (novel_trans_gtf novel_gtf) annots)
  <-> exists l t a,
        In l novel_gtf
        /\ Text.attr_value "transcript_id" (c8 l) = Some t
        /\ annots !! t = Some a
        /\ Classifier.classification a = "novel_isoform"
        /\ r = {| line := l;
                  gene_id :=
                    map_cell (gene_name_to_gene_id (known_trans_gtf lnc_gtf))
                      (Classifier.ref_gene_id__lnc a);
                  transcript_id := Some t;
                  gene_name := Classifier.ref_gene_id__lnc a;
                  start_pos := None |}.
Proof.
  unfold novel_isoform_gtf. rewrite map_map, in_map_iff. split.
  - intros (r0 & <- & Hr0).
    apply select_In in Hr0 as [Hr0 (t & Ht & [a [Ha Hc]]%classified_one)].
    unfold novel_trans_gtf in Hr0.
    apply in_map_iff in Hr0 as (l & <- & Hl). cbn in Ht.
    exists l, t, a. repeat split; try assumption.
    unfold set_gene_id, set_gene_name. cbn.
    rewrite Ht. unfold map_cell at 2 3, trans_id_to_gene_name.
    rewrite lookup_fmap, Ha. reflexivity.
  - intros (l & t & a & Hl & Ht & Ha & Hc & ->).
    exists {| line := l;
              gene_id := Text.attr_value "gene_id" (c8 l);
              transcript_id := Text.attr_value "transcript_id" (c8 l);
              gene_name := None;
              start_pos := None |}.
    split.
    + unfold set_gene_id, set_gene_name. cbn.
      rewrite Ht. unfold map_cell at 2 3, trans_id_to_gene_name.
      rewrite lookup_fmap, Ha. reflexivity.
    + apply select_In. split.
      * unfold novel_trans_gtf. apply in_map_iff. exists l. split;
          [reflexivity|exact Hl].
      * exists t. split; [exact Ht|]. apply classified_one. eauto.
Qed.

(** C9: every line of the merged assembly whose transcript is
    classified [novel_isoform] is written to the catalog, with as
    [gene_name] the [ref_gene_id__lnc] of the transcript and as
    [gene_id] that of the first exon line of the known annotation
    that carries this name and a [gene_id]; when no exon line carries
    the name the [gene_id] is missing and the line is written all the
    same, its attribute column missing.  The re-annotated table holds
    such rows only. *)
Theorem novel_isoform_gene_identity
  (lnc_gtf novel_gtf : list gtf_line) (annots : gmap string Classifier.row) :
  lnc_gtf <> [] -> novel_gtf <> [] ->
  exists out,
    fold_novel_lncs_into_input_gtfs lnc_gtf novel_gtf annots = Returned out
    /\ (forall l t a,
          In l novel_gtf ->
          Text.attr_value "transcript_id" (c8 l) = Some t ->
          annots !! t = Some a ->
          Classifier.classification a = "novel_isoform" ->
          exists g,
            first_gene_id_of lnc_gtf (Classifier.ref_gene_id__lnc a) g
            /\ In {| line := l; gene_id := g; transcript_id := Some t;
                     gene_name := Classifier.ref_gene_id__lnc a;
                     start_pos := None |}
                  (novel_isoform_gtf (known_trans_gtf lnc_gtf)
                     (novel_trans_gtf novel_gtf) annots)
            /\ In (l, attribute_text g (Some t)
                        (Classifier.ref_gene_id__lnc a)) out
            /\ (forall n,
                  Classifier.ref_gene_id__lnc a = Some n ->
                  (forall k, In k lnc_gtf -> ~ named n k) ->
                  g = None /\ In (l, None) out))
    /\ (forall r,
          In r (novel_isoform_gtf (known_trans_gtf lnc_gtf)
                  (novel_trans_gtf novel_gtf) annots) ->
          exists t a,
            In (line r) novel_gtf
            /\ Text.attr_value "transcript_id" (c8 (line r)) = Some t
            /\ transcript_id r = Some t
            /\ annots !! t = Some a
            /\ Classifier.classification a = "novel_isoform"
            /\ gene_name r = Classifier.ref_gene_id__lnc a
            /\ first_gene_id_of lnc_gtf (gene_name r) (gene_id r)).
Proof.
  intros Hl Hn. eexists. split; [apply fold_returns; assumption|]. split.
  - intros l t a Hin Ht Ha Hc.
    set (g := map_cell (gene_name_to_gene_id (known_trans_gtf lnc_gtf))
                (Classifier.ref_gene_id__lnc a)).
    assert (Hfirst : first_gene_id_of lnc_gtf
                       (Classifier.ref_gene_id__lnc a) g)
      by apply first_gene_id_of_cell.
    assert (Hrow : In {| line := l; gene_id := g; transcript_id := Some t;
                         gene_name := Classifier.ref_gene_id__lnc a;
                         start_pos := None |}
                      (novel_isoform_gtf (known_trans_gtf lnc_gtf)
                         (novel_trans_gtf novel_gtf) annots)).
    { apply novel_isoform_gtf_In. exists l, t, a. auto. }
    assert (Hout : In (l, attribute_text g (Some t)
                            (Classifier.ref_gene_id__lnc a))
                      (map (fun r => (line r, attributes r))
                         (sort row_leb
                            (merge_start_pos
                               (population lnc_gtf novel_gtf annots))))).
    { apply (population_rendered lnc_gtf novel_gtf annots
               {| line := l; gene_id := g; transcript_id := Some t;
                  gene_name := Classifier.ref_gene_id__lnc a;
                  start_pos := None |}).
      unfold population. apply in_or_app. right. apply in_or_app. left.
      exact Hrow. }
    exists g. split; [exact Hfirst|]. split; [exact Hrow|].
    split; [exact Hout|].
    intros n Hname Hno. rewrite Hname in Hfirst.
    pose proof (first_gene_id_of_unnamed lnc_gtf n g Hno Hfirst) as Hg.
    split; [exact Hg|]. rewrite Hg in Hout. exact Hout.
  - intros r Hr.
    apply novel_isoform_gtf_In in Hr as (l & t & a & Hin & Ht & Ha & Hc & ->).
    exists t, a. cbn. repeat split; try assumption.
    apply first_gene_id_of_cell.
Qed.

Lemma novel_isoform_gene_identity_witness :
  exists out g,
    fold_novel_lncs_into_input_gtfs CatalogSamples.known_lncs
      CatalogSamples.novel_lncs CatalogSamples.annots = Returned out
    /\ first_gene_id_of CatalogSamples.known_lncs (Some "LINC1") g
    /\ In (CatalogSamples.novel_line_1,
           attribute_text g (Some "TCONS_1") (Some "LINC1")) out.
Proof.
  destruct (novel_isoform_gene_identity CatalogSamples.known_lncs
              CatalogSamples.novel_lncs CatalogSamples.annots)
    as (out & Hout & Hall & _); [discriminate|discriminate|].
  destruct (Hall CatalogSamples.novel_line_1 "TCONS_1"
              (CatalogSamples.annot "TCONS_1" "LINC1"))
    as (g & Hg & _ & Hin & _).
  - left. reflexivity.
  - vm_compute. reflexivity.
  - reflexivity.
  - reflexivity.
  - exists out, g. split; [exact Hout|]. split; [exact Hg|exact Hin].
Defined.

(** On the sample: [TCONS_1] takes the identifier written first with
    [LINC1]; [TCONS_2], matched to a name the known table lacks, is
    written with a missing attribute column. *)
Example novel_isoform_gene_identity_sample :
  map (fun r => (transcript_id r, gene_name r, gene_id r, attributes r))
      (novel_isoform_gtf (known_trans_gtf CatalogSamples.known_lncs)
         (novel_trans_gtf CatalogSamples.novel_lncs) CatalogSamples.annots)
  = [ (Some "TCONS_1", Some "LINC1", Some "ENSG1",
       cat (Some ("gene_id " ++ Text.dquote ++ "ENSG1" ++ Text.dquote
                    ++ "; transcript_id " ++ Text.dquote ++ "TCONS_1"
                    ++ Text.dquote ++ "; gene_name " ++ Text.dquote ++ "LINC1"
                    ++ Text.dquote ++ ";")) (Some ""));
      (Some "TCONS_2", Some "LINC9", None, None) ].
Proof. vm_compute. reflexivity. Qed.

End CatalogFacts.
